(** * Flower-shop ledger: the Daily Sheet and its running-debt recalculation

    A shallow embedding of the ledger code of the Streamlit front ends
    ([app_v1.0.py], [flower-shop_app.py]) and of the price lookup of the
    desktop front end ([desktop_app.py]).

    Modelling conventions.
    - The SQLite table [DailySheet] is a list of rows in storage order; the
      column [Id] is its INTEGER PRIMARY KEY AUTOINCREMENT.
    - REAL columns ([Qty], [Rate], [Amount], [Debt], [Price]) hold binary64
      floating-point values, the [float] of Python and of SQLite; they are
      added, subtracted, negated and multiplied with the IEEE operations,
      and a stored value is read back as it was written. No law of exact
      arithmetic is used anywhere.
    - The sums computed by [pandas] ([Series.sum]) and by SQLite ([SUM])
      add a column in an order of their own; they are parameters of the
      development ([pandas_sum], [SUM]).
    - The column [DebitCredit] only ever receives the two options of its
      select box, so it is an enumeration.
    - A statement that raises (subscripting the [None] of [fetchone],
      [list.index] on a missing element) is the [None] of an option. *)

From Stdlib Require Import ZArith List String Bool Lia Permutation Floats.
From Stdlib Require Import RelationClasses OrdersEx.
Import ListNotations.
Local Open Scope string_scope.
Local Open Scope list_scope.
Local Open Scope Z_scope.

(** ** Data model *)

Inductive Direction : Type := Debit | Credit.

Definition is_Credit (d : Direction) : bool :=
  match d with Credit => true | Debit => false end.

(** One row of [DailySheet], column by column. *)
Record Row : Type := mkRow {
  Id : Z;
  Date : string;
  Name : string;
  FlowerName : string;
  Qty : float;
  Rate : float;
  Amount : float;
  DebitCredit : Direction;
  Debt : float;
  BuyerName : string
}.

Definition set_Debt (d : float) (r : Row) : Row :=
  mkRow (Id r) (Date r) (Name r) (FlowerName r) (Qty r) (Rate r) (Amount r)
        (DebitCredit r) d (BuyerName r).

(** The connection: the ledger table, the AUTOINCREMENT counter SQLite
    keeps for it in [sqlite_sequence], and the name lists that
    [get_customers], [get_flowers] and [get_buyers] read from the master
    tables. *)
Record Db : Type := mkDb {
  DailySheet : list Row;
  DailySheet_seq : Z;
  customers : list string;
  flowers : list string;
  buyers : list string
}.

Definition set_DailySheet (conn : Db) (t : list Row) : Db :=
  mkDb t (DailySheet_seq conn) (customers conn) (flowers conn) (buyers conn).

(** ** SQL fragments used by the ledger code *)

(** [ORDER BY Id]: a stable insertion sort on the key. *)
Fixpoint insert_by_Id (r : Row) (l : list Row) : list Row :=
  match l with
  | [] => [r]
  | x :: l' => if Id r <=? Id x then r :: l else x :: insert_by_Id r l'
  end.

Definition order_by_Id (l : list Row) : list Row :=
  fold_right insert_by_Id [] l.

(** [WHERE DebitCredit = 'Credit' and BuyerName = ?] *)
Definition credit_of (buyer_name : string) (r : Row) : bool :=
  is_Credit (DebitCredit r) && (BuyerName r =? buyer_name)%string.

(** [SELECT * FROM DailySheet WHERE DebitCredit = 'Credit' and
    BuyerName = ? ORDER BY Id] *)
Definition select_credit (t : list Row) (buyer_name : string) : list Row :=
  order_by_Id (filter (credit_of buyer_name) t).

(** [UPDATE DailySheet SET Debt = ? WHERE DebitCredit = 'Credit' and Id = ?] *)
Definition update_Debt (running_debt : float) (id : Z) (t : list Row)
  : list Row :=
  map (fun r => if is_Credit (DebitCredit r) && (Id r =? id)
                then set_Debt running_debt r else r) t.

(** ** [recalculate_debts] *)

(** The signed amount of a row, as computed in the loop and in the forms. *)
Definition signed_amount (r : Row) : float :=
  match DebitCredit r with
  | Credit => Amount r
  | Debit => (- Amount r)%float
  end.

(** The body of [for index, row in df.iterrows()], threading the running
    total and the table the cursor writes to. *)
Fixpoint iterrows (df : list Row) (running_debt : float) (t : list Row)
  : list Row :=
  match df with
  | [] => t
  | row :: df' =>
      let signed := signed_amount row in
      let running_debt := (running_debt + signed)%float in
      iterrows df' running_debt (update_Debt running_debt (Id row) t)
  end.

Definition recalculate_table (t : list Row) (buyer_name : string) : list Row :=
  let df := select_credit t buyer_name in
  match df with
  | [] => t
  | _ :: _ => iterrows df 0%float t
  end.

Definition recalculate_debts (conn : Db) (buyer_name : string) : Db :=
  let df := select_credit (DailySheet conn) buyer_name in
  match df with
  | [] => conn
  | _ :: _ => set_DailySheet conn (iterrows df 0%float (DailySheet conn))
  end.

(** The simplification the loop admits: every fetched row is a Credit row,
    so its amount is added as it is. *)
Fixpoint iterrows_simplified (df : list Row) (running_debt : float)
    (t : list Row) : list Row :=
  match df with
  | [] => t
  | row :: df' =>
      let running_debt := (running_debt + Amount row)%float in
      iterrows_simplified df' running_debt (update_Debt running_debt (Id row) t)
  end.

Definition recalculate_debts_simplified (conn : Db) (buyer_name : string) : Db :=
  let df := select_credit (DailySheet conn) buyer_name in
  match df with
  | [] => conn
  | _ :: _ =>
      set_DailySheet conn (iterrows_simplified df 0%float (DailySheet conn))
  end.

(** ** What the pages share *)

(** Python truthiness of a string. *)
Definition truthy (s : string) : bool := negb (s =? "")%string.

(** What the page shows through [st.error] and [st.success]. *)
Inductive Message : Type :=
| st_error (msg : string)
| st_success (msg : string).

(** The two submit buttons of an edit form; at most one is pressed in a
    run. *)
Inductive Button : Type := PressUpdate | PressDelete | NoPress.

(** ** The price catalogue *)

(** One row of the Streamlit table [DailyFlowerPrice], whose primary key
    is (FlowerName, Date). *)
Record PriceRow : Type := mkPriceRow {
  price_FlowerName : string;
  price_Date : string;
  Price : float
}.

(** [SELECT Price FROM DailyFlowerPrice WHERE FlowerName = ? AND Date = ?]
    followed by [c.fetchone()]. *)
Definition fetchone_Price (t : list PriceRow) (flower_name date_str : string)
  : option float :=
  option_map Price
    (find (fun p => (price_FlowerName p =? flower_name)%string
                    && (price_Date p =? date_str)%string) t).

(** [default_rate = result[0] if result else 0.0], the value the rate
    field of the add form is created with. *)
Definition default_rate (t : list PriceRow) (flower_name date_str : string)
  : float :=
  match fetchone_Price t flower_name date_str with
  | Some price => price
  | None => 0%float
  end.

(** The price table and lookup of the desktop front end. *)
Module Desktop.

(** One row of [flower_prices]; (flower_id, price_date) is unique. *)
Record flower_price : Type := mk_flower_price {
  id : Z;
  flower_id : Z;
  price_date : string;
  price : float
}.

(** Comparison of TEXT values: byte by byte. *)
Definition text_le (a b : string) : bool :=
  match String_as_OT.compare a b with Gt => false | _ => true end.

Definition text_lt (a b : string) : bool :=
  match String_as_OT.compare a b with Lt => true | _ => false end.

(** [ORDER BY price_date DESC LIMIT 1] over the rows still to scan, with
    the best row so far. *)
Fixpoint latest_from (best : flower_price) (rows : list flower_price)
  : flower_price :=
  match rows with
  | [] => best
  | r :: rows' =>
      latest_from (if text_lt (price_date best) (price_date r) then r else best)
                  rows'
  end.

Definition latest (rows : list flower_price) : option flower_price :=
  match rows with
  | [] => None
  | r :: rows' => Some (latest_from r rows')
  end.

(** [WHERE flower_id=? AND price_date<=?] *)
Definition on_or_before (fid : Z) (ymd : string) (r : flower_price) : bool :=
  (flower_id r =? fid) && text_le (price_date r) ymd.

Definition fetch_today_price (flower_prices : list flower_price)
    (fid : Z) (ymd : string) : option float :=
  let row := latest (filter (on_or_before fid ymd) flower_prices) in
  match row with
  | None => None
  | Some row => Some (price row)
  end.

(** [on_date_or_flower_change]: the value of the rate field afterwards,
    given the number of entries of the flower combo box, the id of its
    current entry and the value the field held. Stored prices come from a
    spin box of the same range and precision as the rate field, so
    [setValue] takes them as they are. *)
Definition on_date_or_flower_change (flower_prices : list flower_price)
    (cb_flower_count : nat) (fid : Z) (ymd : string) (rate : float) : float :=
  match cb_flower_count with
  | O => rate
  | S _ =>
      match fetch_today_price flower_prices fid ymd with
      | Some price => price
      | None => rate
      end
  end.

End Desktop.

(** ** The page "Daily Flower Price" *)

(** [WHERE FlowerName = ? AND Date = ?] *)
Definition same_price_key (flower_name date_str : string) (p : PriceRow)
  : bool :=
  (price_FlowerName p =? flower_name)%string
  && (price_Date p =? date_str)%string.

(** [INSERT INTO DailyFlowerPrice (FlowerName, Date, Price) VALUES (?, ?, ?)];
    [None] is the [sqlite3.IntegrityError] of the primary key. *)
Definition insert_Price (t : list PriceRow) (flower_name date_str : string)
    (price : float) : option (list PriceRow) :=
  if existsb (same_price_key flower_name date_str) t then None
  else Some (t ++ [mkPriceRow flower_name date_str price]).

(** [UPDATE DailyFlowerPrice SET Price = ? WHERE FlowerName = ? AND Date = ?] *)
Definition update_Price (t : list PriceRow) (price : float)
    (flower_name date_str : string) : list PriceRow :=
  map (fun p => if same_price_key flower_name date_str p
                then mkPriceRow (price_FlowerName p) (price_Date p) price
                else p) t.

(** One run of the form "Set Price". *)
Definition set_price (t : list PriceRow) (submit_add : bool)
    (flower_name date_str : string) (price : float)
  : list PriceRow * list Message :=
  if submit_add && truthy flower_name then
    match insert_Price t flower_name date_str price with
    | Some t' => (t', [st_success "Price set successfully!"])
    | None => (update_Price t price flower_name date_str,
               [st_success "Price updated successfully!"])
    end
  else (t, []).

(** (FlowerName, Date) is the primary key of [DailyFlowerPrice]. *)
Definition price_key (t : list PriceRow) : Prop :=
  NoDup (map (fun p => (price_FlowerName p, price_Date p)) t).

(** ** The pages "Customer Master" and "Buyer Master" of [app_v1.0.py] *)

(** One row of [CustomerMaster] or [BuyerMaster]; [Name] is the primary
    key. *)
Record MasterRow : Type := mkMasterRow {
  master_Name : string;
  Address : string;
  ContactNo : string
}.

(** [SELECT Name FROM ...] of [get_customers] and [get_buyers]. *)
Definition get_names (t : list MasterRow) : list string := map master_Name t.

(** The add form of either page, with the two messages of the page. *)
Definition add_master (exists_msg added_msg : string) (t : list MasterRow)
    (submit_add : bool) (name address contact_no : string)
  : list MasterRow * list Message :=
  if submit_add && truthy name then
    if existsb (fun r => (master_Name r =? name)%string) t
    then (t, [st_error exists_msg])
    else (t ++ [mkMasterRow name address contact_no], [st_success added_msg])
  else (t, []).

Definition add_customer :=
  add_master "Customer name already exists!" "Customer added successfully!".

Definition add_buyer :=
  add_master "Buyer name already exists!" "Buyer added successfully!".

(** The edit block of either page for the selected name: Update writes the
    address and the contact number, Delete removes the row. *)
Definition edit_master (updated_msg : string) (t : list MasterRow)
    (selected_name new_address new_contact_no : string) (button : Button)
  : option (list MasterRow * list Message) :=
  match t with
  | [] => Some (t, [])
  | _ :: _ =>
    if truthy selected_name then
      match find (fun r => (master_Name r =? selected_name)%string) t with
      | None => None
      | Some current_data =>
        match button with
        | PressUpdate =>
            Some (map (fun r => if (master_Name r =? selected_name)%string
                                then mkMasterRow (master_Name r) new_address
                                                 new_contact_no
                                else r) t,
                  [st_success updated_msg])
        | PressDelete =>
            Some (filter (fun r => negb (master_Name r =? selected_name)%string)
                         t, [])
        | NoPress => Some (t, [])
        end
      end
    else Some (t, [])
  end.

Definition edit_customer := edit_master "Customer updated successfully!".

Definition edit_buyer := edit_master "Buyer updated successfully!".

(** ** The price form of the desktop flower tab *)

(** The message boxes [info] and [warn]. *)
Inductive Dialog : Type :=
| info (msg : string)
| warn (msg : string).

(** The conflict target (flower_id, price_date). *)
Definition same_flower_date (fid : Z) (d : string) (r : Desktop.flower_price)
  : bool :=
  (Desktop.flower_id r =? fid) && (Desktop.price_date r =? d)%string.

(** [INSERT INTO flower_prices (flower_id, price_date, price) VALUES (?, ?, ?)
    ON CONFLICT(flower_id, price_date) DO UPDATE SET price=excluded.price];
    [new_id] is the id SQLite gives the row when it is inserted. *)
Definition upsert_price (t : list Desktop.flower_price) (new_id fid : Z)
    (d : string) (p : float) : list Desktop.flower_price :=
  if existsb (same_flower_date fid d) t
  then map (fun r => if same_flower_date fid d r
                     then Desktop.mk_flower_price (Desktop.id r)
                            (Desktop.flower_id r) (Desktop.price_date r) p
                     else r) t
  else t ++ [Desktop.mk_flower_price new_id fid d p].

(** [add_price]: [flower_editing_id] is [None] until a flower is selected. *)
Definition add_price (t : list Desktop.flower_price)
    (flower_editing_id : option Z) (new_id : Z) (d : string) (p : float)
  : list Desktop.flower_price * list Dialog :=
  match flower_editing_id with
  | None => (t, [warn "Select a flower first"])
  | Some fid =>
      if fid =? 0 then (t, [warn "Select a flower first"])
      else (upsert_price t new_id fid d p, [info "Price saved"])
  end.

(** ** Sums *)

(** The running total of the specification: start from [0.0] and add the
    entries one after the other, as the loop of [recalculate_debts] does. *)
Definition running_total (l : list float) : float :=
  fold_left PrimFloat.add l 0%float.

(** One summation order, used to run the scenarios: from left to right. *)
Definition sum_left (l : list float) : float := running_total l.

(** The two library sums are parameters of the development: the order in
    which pandas and SQLite add the entries of a column is theirs to
    choose, and in binary64 the result depends on it. Nothing below
    assumes anything about them. *)
Section Aggregates.

(** [Series.sum()] of pandas over a float column. *)
Variable pandas_sum : list float -> float.

(** The aggregate [SUM] of SQLite over a REAL column. *)
Variable SUM : list float -> float.

(** ** The Daily Sheet forms *)

(** [df_transactions] of both forms: [SELECT * FROM DailySheet WHERE
    BuyerName = ?], then the sum of the signed amounts, or [0.0] when the
    frame is empty. *)
Definition current_debt_of (t : list Row) (buyer_name : string) : float :=
  let df_transactions := filter (fun r => (BuyerName r =? buyer_name)%string) t in
  match df_transactions with
  | [] => 0%float
  | _ :: _ => pandas_sum (map signed_amount df_transactions)
  end.

(** The largest [Id] stored in the table ([0] for an empty table). *)
Definition max_Id (t : list Row) : Z :=
  fold_right (fun r m => Z.max (Id r) m) 0 t.

(** AUTOINCREMENT: one more than the largest row id that ever existed. *)
Definition next_Id (conn : Db) : Z :=
  Z.max (max_Id (DailySheet conn)) (DailySheet_seq conn) + 1.

(** [INSERT INTO DailySheet (Date, Name, FlowerName, Qty, Rate, Amount,
    DebitCredit, Debt, BuyerName) VALUES (...)] *)
Definition insert_DailySheet (conn : Db) (date name flower_name : string)
    (qty rate amount : float) (debit_credit : Direction) (debt : float)
    (buyer_name : string) : Db :=
  let id := next_Id conn in
  mkDb (DailySheet conn ++
          [mkRow id date name flower_name qty rate amount debit_credit debt
                 buyer_name])
       id (customers conn) (flowers conn) (buyers conn).

(** The widgets of the form "Add Transaction". *)
Record AddForm : Type := mkAddForm {
  submit_add : bool;
  add_date : string;
  add_name : string;
  add_flower_name : string;
  add_qty : float;
  add_rate : float;
  add_debit_credit : Direction;
  add_buyer_name : string
}.

Definition add_amount (f : AddForm) : float := (add_qty f * add_rate f)%float.

(** [new_debt] of the add form. *)
Definition add_new_debt (conn : Db) (f : AddForm) : float :=
  let amount := add_amount f in
  let current_debt := current_debt_of (DailySheet conn) (add_buyer_name f) in
  match add_debit_credit f with
  | Credit =>
      let signed_amount := amount in (current_debt + signed_amount)%float
  | Debit => (- amount)%float
  end.

Definition buyer_required : string :=
  "Buyer Name is required when Debit/Credit is set to 'Credit'.".

(** One run of the form "Add Transaction". *)
Definition add_transaction (conn : Db) (f : AddForm) : Db * list Message :=
  let amount := add_amount f in
  let new_debt := add_new_debt conn f in
  if submit_add f && truthy (add_name f) && truthy (add_flower_name f) then
    if is_Credit (add_debit_credit f) && negb (truthy (add_buyer_name f)) then
      (conn, [st_error buyer_required])
    else
      let conn1 :=
        insert_DailySheet conn (add_date f) (add_name f) (add_flower_name f)
          (add_qty f) (add_rate f) amount (add_debit_credit f) new_debt
          (add_buyer_name f) in
      (recalculate_debts conn1 (add_buyer_name f),
       [st_success "Transaction added successfully!"])
  else (conn, []).

(** [c.fetchone()] after [SELECT ... FROM DailySheet WHERE Id = ?]. *)
Definition fetchone_by_Id (t : list Row) (id : Z) : option Row :=
  find (fun r => Id r =? id) t.

(** [l.index(x)], [None] where Python raises [ValueError]. *)
Fixpoint index (x : string) (l : list string) : option nat :=
  match l with
  | [] => None
  | y :: l' => if (y =? x)%string then Some 0%nat
               else option_map S (index x l')
  end.

(** The widgets of the form "Edit Transaction". *)
Record EditForm : Type := mkEditForm {
  edit_date : string;
  edit_name : string;
  edit_flower_name : string;
  edit_qty : float;
  edit_rate : float;
  edit_debit_credit : Direction;
  edit_buyer_name : string;
  edit_button : Button
}.

(** [UPDATE DailySheet SET Date = ?, ..., BuyerName = ? WHERE Id = ?] *)
Definition update_DailySheet (t : list Row) (date name flower_name : string)
    (qty rate amount : float) (debit_credit : Direction) (debt : float)
    (buyer_name : string) (id : Z) : list Row :=
  map (fun r => if Id r =? id
                then mkRow (Id r) date name flower_name qty rate amount
                           debit_credit debt buyer_name
                else r) t.

(** [DELETE FROM DailySheet WHERE Id = ?] *)
Definition delete_DailySheet (t : list Row) (id : Z) : list Row :=
  filter (fun r => negb (Id r =? id)) t.

(** [new_debt] of the edit form. *)
Definition edit_new_debt (conn : Db) (current_data : Row) (f : EditForm)
  : float :=
  let old_buyer := BuyerName current_data in
  let old_signed := signed_amount current_data in
  let amount := (edit_qty f * edit_rate f)%float in
  let current_debt := current_debt_of (DailySheet conn) (edit_buyer_name f) in
  let temp_debt :=
    if (edit_buyer_name f =? old_buyer)%string
    then (current_debt - old_signed)%float
    else current_debt in
  let signed_amount :=
    match edit_debit_credit f with
    | Credit => amount
    | Debit => (- amount)%float
    end in
  (temp_debt + signed_amount)%float.

(** The UPDATE statement of the edit form with its parameters. *)
Definition execute_update (conn : Db) (current_data : Row) (f : EditForm)
    (selected_id : Z) : Db :=
  let amount := (edit_qty f * edit_rate f)%float in
  let new_debt := edit_new_debt conn current_data f in
  set_DailySheet conn
    (update_DailySheet (DailySheet conn) (edit_date f) (edit_name f)
       (edit_flower_name f) (edit_qty f) (edit_rate f) amount
       (edit_debit_credit f) new_debt (edit_buyer_name f) selected_id).

(** The DELETE statement of the edit form. *)
Definition execute_delete (conn : Db) (selected_id : Z) : Db :=
  set_DailySheet conn (delete_DailySheet (DailySheet conn) selected_id).

(** One run of the edit block of the Daily Sheet page for the selected
    transaction. *)
Definition edit_transaction (conn : Db) (selected_id : Z) (f : EditForm)
  : option (Db * list Message) :=
  match DailySheet conn with
  | [] => Some (conn, [])
  | _ :: _ =>
    if selected_id =? 0 then Some (conn, [])
    else
      match fetchone_by_Id (DailySheet conn) selected_id with
      | None => None
      | Some current_data =>
        let old_buyer := BuyerName current_data in
        match index (Name current_data) (customers conn),
              index (FlowerName current_data) (flowers conn),
              index old_buyer (buyers conn) with
        | Some _, Some _, Some _ =>
          match edit_button f with
          | PressUpdate =>
            let conn1 := execute_update conn current_data f selected_id in
            let conn2 := recalculate_debts conn1 old_buyer in
            let conn3 :=
              if negb (edit_buyer_name f =? old_buyer)%string
              then recalculate_debts conn2 (edit_buyer_name f)
              else conn2 in
            Some (conn3, [st_success "Transaction updated successfully!"])
          | PressDelete =>
            let conn1 := execute_delete conn selected_id in
            Some (recalculate_debts conn1 old_buyer, [])
          | NoPress => Some (conn, [])
          end
        | _, _, _ => None
        end
      end
  end.

(** ** Specification-level notions *)

(** [a1 + ... + ak] for the first [k] entries of [l], as binary64
    computes it from left to right: [((0.0 + a1) + a2) + ... + ak], the
    running total after [k] additions. *)
Definition prefix_sum (l : list float) (k : nat) : float :=
  running_total (firstn k l).

Definition prefix_sums (l : list float) : list float :=
  map (prefix_sum l) (seq 1 (List.length l)).

(** Keys strictly ascending along a list of rows. *)
Definition ascending_Id (l : list Row) : Prop :=
  forall (i j : nat) (ri rj : Row),
    (i < j)%nat -> nth_error l i = Some ri -> nth_error l j = Some rj ->
    Id ri < Id rj.

(** [cs] is the sequence of the Credit rows of a buyer in a table: exactly
    those rows, in ascending [Id]. *)
Definition credit_sequence (t : list Row) (buyer_name : string)
    (cs : list Row) : Prop :=
  ascending_Id cs /\
  forall r, In r cs <->
            In r t /\ DebitCredit r = Credit /\ BuyerName r = buyer_name.

(** [Id] is the primary key of the table. *)
Definition primary_key (t : list Row) : Prop := NoDup (map Id t).

(** The core contract for one buyer: along the buyer's Credit rows in
    ascending [Id], each [Debt] is the running total of the amounts so
    far. *)
Definition prefix_sum_invariant (t : list Row) (buyer_name : string) : Prop :=
  map Debt (select_credit t buyer_name)
  = prefix_sums (map Amount (select_credit t buyer_name)).

(** Two rows that differ at most in [Debt]. *)
Definition same_but_Debt (r r' : Row) : Prop := r' = set_Debt (Debt r') r.

(** A row transformer that keeps every column but [Debt]. *)
Definition keeps_columns (g : Row -> Row) : Prop :=
  forall r, same_but_Debt r (g r).

(** What the loop of [recalculate_debts] does to one stored row. *)
Fixpoint iterrows_row (df : list Row) (running_debt : float) (r : Row) : Row :=
  match df with
  | [] => r
  | row :: df' =>
      let running_debt := (running_debt + signed_amount row)%float in
      iterrows_row df' running_debt
        (if is_Credit (DebitCredit r) && (Id r =? Id row)
         then set_Debt running_debt r else r)
  end.

(** The last running total the loop writes under a given [Id], if any. *)
Fixpoint assigned (df : list Row) (running_debt : float) (id : Z)
  : option float :=
  match df with
  | [] => None
  | row :: df' =>
      let running_debt := (running_debt + signed_amount row)%float in
      match assigned df' running_debt id with
      | Some d => Some d
      | None => if Id row =? id then Some running_debt else None
      end
  end.

(** A user action on the Daily Sheet page, or a bare recalculation pass. *)
Inductive Action : Type :=
| Add (f : AddForm)
| Edit (selected_id : Z) (f : EditForm)
| Recalculate (buyer_name : string).

(** The connection after an action; a run of the edit block that raises has
    written nothing. *)
Definition run_action (conn : Db) (a : Action) : Db :=
  match a with
  | Add f => fst (add_transaction conn f)
  | Edit selected_id f =>
      match edit_transaction conn selected_id f with
      | Some (conn', _) => conn'
      | None => conn
      end
  | Recalculate buyer_name => recalculate_debts conn buyer_name
  end.

Definition run_actions (conn : Db) (l : list Action) : Db :=
  fold_left run_action l conn.

(** The action is not an edit (update or delete) of the row [id]. *)
Definition leaves_row (id : Z) (a : Action) : Prop :=
  match a with
  | Edit selected_id _ => selected_id <> id
  | _ => True
  end.

(** The row the add form inserts, as the INSERT statement writes it. *)
Definition inserted_row (conn : Db) (f : AddForm) : Row :=
  mkRow (next_Id conn) (add_date f) (add_name f) (add_flower_name f)
        (add_qty f) (add_rate f) (add_amount f) (add_debit_credit f)
        (add_new_debt conn f) (add_buyer_name f).

(** The submission passes the guards of the add form. *)
Definition accepted (f : AddForm) : bool :=
  submit_add f && truthy (add_name f) && truthy (add_flower_name f)
  && negb (is_Credit (add_debit_credit f) && negb (truthy (add_buyer_name f))).

(** Ascending keys along a list. *)
Fixpoint ascending (l : list Row) : Prop :=
  match l with
  | [] => True
  | x :: l' => (forall y, In y l' -> Id x <= Id y) /\ ascending l'
  end.

(** [WHERE Id <> ?], the rows a DELETE leaves. *)
Definition other_than (id : Z) (r : Row) : bool := negb (Id r =? id).

(** A history of submissions to the add form, replayed in order. *)
Definition replay (conn : Db) (fs : list AddForm) : Db :=
  fold_left (fun c f => fst (add_transaction c f)) fs conn.

(** The submission adds a Credit row to the sequence of buyer [b]. *)
Definition credited (b : string) (f : AddForm) : bool :=
  accepted f
  && (is_Credit (add_debit_credit f) && (add_buyer_name f =? b)%string).

(** The amounts a history adds to the sequence of buyer [b], in order. *)
Definition credited_amounts (b : string) (fs : list AddForm) : list float :=
  map add_amount (filter (credited b) fs).

(** Key and amount of a row. *)
Definition key_amount (r : Row) : Z * float := (Id r, Amount r).

(** The ledger of the spec's scenario: buyer B1 with a Credit of 100, a
    Debit of 50 and a Credit of 200, none yet balanced; and one Credit row
    of another buyer. *)
Definition ledger_B1 : Db :=
  mkDb [ mkRow 1 "2024-03-02" "Anbu" "Rose" 10 10 100 Credit 0 "B1";
         mkRow 2 "2024-03-02" "Anbu" "Rose" 5 10 50 Debit (-50) "B1";
         mkRow 3 "2024-03-01" "Anbu" "Lily" 20 10 200 Credit 7 "B1";
         mkRow 4 "2024-03-03" "Mala" "Rose" 4 10 40 Credit 40 "B2" ]
       4 ["Anbu"; "Mala"] ["Rose"; "Lily"] ["B1"; "B2"].

(** The same ledger once buyer B1 has been recalculated. *)
Definition ledger_B1_balanced : Db :=
  mkDb [ mkRow 1 "2024-03-02" "Anbu" "Rose" 10 10 100 Credit 100 "B1";
         mkRow 2 "2024-03-02" "Anbu" "Rose" 5 10 50 Debit (-50) "B1";
         mkRow 3 "2024-03-01" "Anbu" "Lily" 20 10 200 Credit 300 "B1";
         mkRow 4 "2024-03-03" "Mala" "Rose" 4 10 40 Credit 40 "B2" ]
       4 ["Anbu"; "Mala"] ["Rose"; "Lily"] ["B1"; "B2"].

(** A ledger stored out of [Id] order whose amounts do not add up exactly
    in binary64: [2^53 + 1] rounds back to [2^53], twice, although
    [2^53 + 2] is a binary64 number. *)
Definition ledger_rounding : Db :=
  mkDb [ mkRow 3 "2024-03-03" "Anbu" "Rose" 1 1 1 Credit 0 "B1";
         mkRow 1 "2024-03-01" "Anbu" "Rose" 9007199254740992 1
               9007199254740992 Credit 0 "B1";
         mkRow 2 "2024-03-02" "Anbu" "Rose" 1 1 1 Credit 0 "B1" ]
       3 ["Anbu"] ["Rose"] ["B1"].

(** ** Further notions for the Daily Sheet page *)

(** The whole ledger is in order: keys are distinct and every buyer's
    Credit rows carry their running totals. *)
Definition balanced (t : list Row) : Prop :=
  primary_key t /\ forall b, prefix_sum_invariant t b.

(** An empty ledger with the given master lists. *)
Definition empty_ledger (cs fl bs : list string) : Db := mkDb [] 0 cs fl bs.

(** ** Reports *)

(** [WHERE Date = ?] *)
Definition on_date (date_str : string) (r : Row) : bool :=
  (Date r =? date_str)%string.

(** Report "Daily Sales": the total written for the date, or [None] for
    the message "No transactions for this date.". *)
Definition daily_sales (t : list Row) (date_str : string) : option float :=
  let df := filter (on_date date_str) t in
  match df with
  | [] => None
  | _ :: _ => Some (pandas_sum (map Amount df))
  end.

(** [SELECT key, SUM(val) ... GROUP BY key]: one row per distinct key, with
    the sum over the rows of its group. SQL leaves the order of the groups
    open; here they come in the order [nodup] gives. *)
Definition group_sum {K : Type} (eq_dec : forall x y : K, {x = y} + {x <> y})
    (key : Row -> K) (val : Row -> float) (rows : list Row)
  : list (K * float) :=
  map (fun k =>
         (k, SUM (map val (filter (fun r => if eq_dec (key r) k
                                              then true else false) rows))))
      (nodup eq_dec (map key rows)).

(** Report "Flower Sales Summary": [SELECT FlowerName, SUM(Qty) as TotalQty,
    SUM(Amount) as TotalAmount FROM DailySheet WHERE Date = ? GROUP BY
    FlowerName], as the two aggregate columns keyed by flower. *)
Definition flower_sales_TotalQty (t : list Row) (date_str : string)
  : list (string * float) :=
  group_sum string_dec FlowerName Qty (filter (on_date date_str) t).

Definition flower_sales_TotalAmount (t : list Row) (date_str : string)
  : list (string * float) :=
  group_sum string_dec FlowerName Amount (filter (on_date date_str) t).

Definition date_name_dec (x y : string * string) : {x = y} + {x <> y}.
Proof. decide equality; apply string_dec. Defined.

(** Report "Customer Balance": [SELECT Date, Name, Sum(Amount) as
    CurrentDebt FROM DailySheet GROUP BY Date, Name]. *)
Definition customer_balance (t : list Row)
  : list ((string * string) * float) :=
  group_sum date_name_dec (fun r => (Date r, Name r)) Amount t.

(** [MAX] over a group, [None] for an empty one. *)
Fixpoint max_of (l : list Z) : option Z :=
  match l with
  | [] => None
  | x :: l' =>
      match max_of l' with
      | None => Some x
      | Some m => Some (Z.max x m)
      end
  end.

(** The sub-query [SELECT BuyerName, MAX(Id) as MaxId FROM DailySheet GROUP
    BY BuyerName], read at one buyer. *)
Definition MaxId (t : list Row) (buyer_name : string) : option Z :=
  max_of (map Id (filter (fun r => (BuyerName r =? buyer_name)%string) t)).

(** Report "Buyer Debts": the rows of the ledger joined with the sub-query
    on [BuyerName] and [Id = MaxId], projected on (BuyerName, Debt). *)
Definition buyer_debts (t : list Row) : list (string * float) :=
  map (fun d => (BuyerName d, Debt d))
      (filter (fun d => match MaxId t (BuyerName d) with
                        | Some m => Id d =? m
                        | None => false
                        end) t).

(** ** Rows and their fields *)

Lemma set_Debt_Debt d r : Debt (set_Debt d r) = d.
Proof. reflexivity. Qed.

Lemma set_Debt_twice d d' r : set_Debt d (set_Debt d' r) = set_Debt d r.
Proof. reflexivity. Qed.

Lemma set_Debt_self r : set_Debt (Debt r) r = r.
Proof. now destruct r. Qed.

Lemma same_but_Debt_refl r : same_but_Debt r r.
Proof. unfold same_but_Debt. now rewrite set_Debt_self. Qed.

Lemma same_but_Debt_set d r : same_but_Debt r (set_Debt d r).
Proof. reflexivity. Qed.

Lemma same_but_Debt_fields r r' :
  same_but_Debt r r' ->
  Id r' = Id r /\ Date r' = Date r /\ Name r' = Name r /\
  FlowerName r' = FlowerName r /\ Qty r' = Qty r /\ Rate r' = Rate r /\
  Amount r' = Amount r /\ DebitCredit r' = DebitCredit r /\
  BuyerName r' = BuyerName r.
Proof. intros ->. now repeat split. Qed.

Lemma keeps_columns_Id g r : keeps_columns g -> Id (g r) = Id r.
Proof. intros H. now rewrite (H r). Qed.

Lemma keeps_columns_credit_of g b r :
  keeps_columns g -> credit_of b (g r) = credit_of b r.
Proof. intros H. unfold credit_of. now rewrite (H r). Qed.

Lemma keeps_columns_signed g r :
  keeps_columns g -> signed_amount (g r) = signed_amount r.
Proof. intros H. unfold signed_amount. now rewrite (H r). Qed.

Lemma keeps_columns_Amount g r : keeps_columns g -> Amount (g r) = Amount r.
Proof. intros H. now rewrite (H r). Qed.

(** ** [ORDER BY Id] *)

Lemma insert_by_Id_perm r l : Permutation (r :: l) (insert_by_Id r l).
Proof.
  induction l as [|x l IH]; simpl.
  - reflexivity.
  - destruct (Id r <=? Id x).
    + reflexivity.
    + rewrite perm_swap. now apply perm_skip.
Qed.

Lemma order_by_Id_perm l : Permutation l (order_by_Id l).
Proof.
  induction l as [|x l IH]; simpl.
  - constructor.
  - rewrite <- insert_by_Id_perm. now apply perm_skip.
Qed.

Lemma order_by_Id_In l r : In r (order_by_Id l) <-> In r l.
Proof.
  split; apply Permutation_in;
    [symmetry|]; apply order_by_Id_perm.
Qed.

Lemma insert_by_Id_map g r l :
  keeps_columns g ->
  insert_by_Id (g r) (map g l) = map g (insert_by_Id r l).
Proof.
  intros Hg. induction l as [|x l IH]; simpl.
  - reflexivity.
  - rewrite !(keeps_columns_Id g) by assumption.
    destruct (Id r <=? Id x); simpl; [reflexivity|]. now rewrite IH.
Qed.

Lemma order_by_Id_map g l :
  keeps_columns g -> order_by_Id (map g l) = map g (order_by_Id l).
Proof.
  intros Hg. induction l as [|x l IH]; simpl.
  - reflexivity.
  - change (insert_by_Id (g x) (order_by_Id (map g l))
            = map g (insert_by_Id x (order_by_Id l))).
    rewrite IH. now apply insert_by_Id_map.
Qed.

Lemma filter_credit_of_map g b l :
  keeps_columns g ->
  filter (credit_of b) (map g l) = map g (filter (credit_of b) l).
Proof.
  intros Hg. induction l as [|x l IH]; simpl.
  - reflexivity.
  - rewrite (keeps_columns_credit_of g) by assumption.
    destruct (credit_of b x); simpl; now rewrite IH.
Qed.

Lemma select_credit_map g b t :
  keeps_columns g ->
  select_credit (map g t) b = map g (select_credit t b).
Proof.
  intros Hg. unfold select_credit.
  rewrite filter_credit_of_map by assumption. now apply order_by_Id_map.
Qed.

Lemma select_credit_In t b r :
  In r (select_credit t b) <-> In r t /\ credit_of b r = true.
Proof.
  unfold select_credit. rewrite order_by_Id_In. apply filter_In.
Qed.

Lemma credit_of_true b r :
  credit_of b r = true <-> DebitCredit r = Credit /\ BuyerName r = b.
Proof.
  unfold credit_of. rewrite andb_true_iff, String.eqb_eq.
  destruct (DebitCredit r); simpl; intuition congruence.
Qed.

Lemma select_credit_signed t b :
  map signed_amount (select_credit t b) = map Amount (select_credit t b).
Proof.
  apply map_ext_in. intros r Hr.
  apply select_credit_In in Hr. destruct Hr as [_ Hr].
  apply credit_of_true in Hr. unfold signed_amount. now rewrite (proj1 Hr).
Qed.

Lemma primary_key_inj t r r' :
  primary_key t -> In r t -> In r' t -> Id r = Id r' -> r = r'.
Proof.
  unfold primary_key. induction t as [|x t IH]; simpl; [easy|].
  intros Hnd Hr Hr' E. inversion Hnd as [|? ? Hx Ht]; subst.
  destruct Hr as [->|Hr], Hr' as [->|Hr']; auto.
  - exfalso. apply Hx. rewrite E. now apply in_map.
  - exfalso. apply Hx. rewrite <- E. now apply in_map.
Qed.

Lemma primary_key_filter p t : primary_key t -> primary_key (filter p t).
Proof.
  unfold primary_key. induction t as [|x t IH]; simpl; [easy|].
  intros Hnd. inversion Hnd as [|? ? Hx Ht]; subst.
  destruct (p x); simpl; auto. constructor; auto.
  intros Hin. apply Hx. apply in_map_iff in Hin.
  destruct Hin as (y & E & Hy). apply filter_In in Hy.
  rewrite <- E. apply in_map. tauto.
Qed.

Lemma primary_key_order_by_Id l : primary_key l -> primary_key (order_by_Id l).
Proof.
  unfold primary_key. intros H.
  eapply Permutation_NoDup; [|exact H].
  apply Permutation_map, order_by_Id_perm.
Qed.

Lemma primary_key_select_credit t b :
  primary_key t -> primary_key (select_credit t b).
Proof.
  intros H. apply primary_key_order_by_Id. now apply primary_key_filter.
Qed.

Lemma primary_key_map g t :
  keeps_columns g -> primary_key t -> primary_key (map g t).
Proof.
  unfold primary_key. intros Hg H. rewrite map_map.
  erewrite map_ext; [exact H|]. intros r. now apply keeps_columns_Id.
Qed.

Lemma insert_by_Id_In a l r : In r (insert_by_Id a l) <-> r = a \/ In r l.
Proof.
  split.
  - intros H. apply (Permutation_in _ (Permutation_sym (insert_by_Id_perm a l)))
      in H. simpl in H. intuition.
  - intros H. apply (Permutation_in _ (insert_by_Id_perm a l)).
    simpl. intuition.
Qed.

Lemma insert_by_Id_ascending a l : ascending l -> ascending (insert_by_Id a l).
Proof.
  induction l as [|x l IH]; simpl; [intuition|].
  intros [Hx Hl]. destruct (Id a <=? Id x) eqn:E.
  - apply Z.leb_le in E. simpl. repeat split; auto.
    intros y [<-|Hy]; [assumption|]. specialize (Hx y Hy). lia.
  - apply Z.leb_gt in E. simpl. split; [|now apply IH].
    intros y Hy. apply insert_by_Id_In in Hy.
    destruct Hy as [->|Hy]; [lia|now apply Hx].
Qed.

Lemma order_by_Id_ascending l : ascending (order_by_Id l).
Proof.
  induction l as [|a l IH]; simpl; [exact I|].
  now apply insert_by_Id_ascending.
Qed.

Lemma ascending_le l : forall i j ri rj,
  ascending l -> (i < j)%nat ->
  nth_error l i = Some ri -> nth_error l j = Some rj -> Id ri <= Id rj.
Proof.
  induction l as [|x l IH]; intros i j ri rj Hasc Hij Hi Hj.
  - now destruct i.
  - destruct Hasc as [Hx Hl]. destruct j as [|j]; [lia|].
    simpl in Hj. destruct i as [|i]; simpl in Hi.
    + injection Hi as <-. apply Hx. eapply nth_error_In, Hj.
    + apply (IH i j); auto. lia.
Qed.

Lemma ascending_strict l :
  ascending l -> primary_key l -> ascending_Id l.
Proof.
  intros Hasc Hpk i j ri rj Hij Hi Hj.
  pose proof (ascending_le l i j ri rj Hasc Hij Hi Hj) as Hle.
  assert (Hne : Id ri <> Id rj); [|lia].
  intros E. unfold primary_key in Hpk.
  rewrite NoDup_nth_error in Hpk.
  assert (Hlt : (i < List.length (map Id l))%nat).
  { rewrite length_map. apply nth_error_Some. congruence. }
  specialize (Hpk i j Hlt).
  rewrite !nth_error_map, Hi, Hj in Hpk. simpl in Hpk.
  rewrite E in Hpk. specialize (Hpk eq_refl). lia.
Qed.

(** The fetch of [recalculate_debts] is the buyer's Credit rows, all of
    them and no other, in ascending [Id]. *)
Lemma select_credit_sequence t b :
  primary_key t -> credit_sequence t b (select_credit t b).
Proof.
  intros Hpk. split.
  - apply ascending_strict.
    + apply order_by_Id_ascending.
    + now apply primary_key_select_credit.
  - intros r. rewrite select_credit_In, credit_of_true. tauto.
Qed.

(** ** The loop, row by row *)

Lemma recalculate_debts_table conn b :
  DailySheet (recalculate_debts conn b) = recalculate_table (DailySheet conn) b.
Proof.
  unfold recalculate_debts, recalculate_table.
  now destruct (select_credit (DailySheet conn) b).
Qed.

Lemma recalculate_debts_eq conn b :
  recalculate_debts conn b
  = set_DailySheet conn (recalculate_table (DailySheet conn) b).
Proof.
  unfold recalculate_debts, recalculate_table.
  destruct (select_credit (DailySheet conn) b); [|reflexivity].
  now destruct conn.
Qed.

Lemma iterrows_map df : forall run t,
  iterrows df run t = map (iterrows_row df run) t.
Proof.
  induction df as [|row df IH]; intros run t; simpl.
  - now rewrite map_id.
  - rewrite IH. unfold update_Debt. now rewrite map_map.
Qed.

Lemma iterrows_row_assigned df : forall run r,
  iterrows_row df run r
  = if is_Credit (DebitCredit r)
    then match assigned df run (Id r) with
         | Some d => set_Debt d r
         | None => r
         end
    else r.
Proof.
  induction df as [|row df IH]; intros run r; simpl.
  - now destruct (is_Credit (DebitCredit r)).
  - rewrite IH. destruct (is_Credit (DebitCredit r)) eqn:Hc; simpl.
    + rewrite (Z.eqb_sym (Id row)).
      destruct (Id r =? Id row) eqn:E; simpl; rewrite ?Hc.
      * now destruct (assigned df _ (Id r)).
      * now destruct (assigned df _ (Id r)).
    + now rewrite Hc.
Qed.

Lemma iterrows_row_keeps df run : keeps_columns (iterrows_row df run).
Proof.
  intros r. rewrite iterrows_row_assigned.
  destruct (is_Credit (DebitCredit r)); [|apply same_but_Debt_refl].
  destruct (assigned df run (Id r));
    [apply same_but_Debt_set|apply same_but_Debt_refl].
Qed.

Lemma assigned_None df : forall run id,
  ~ In id (map Id df) -> assigned df run id = None.
Proof.
  induction df as [|row df IH]; intros run id Hid; simpl; [reflexivity|].
  simpl in Hid. rewrite IH by tauto.
  destruct (Id row =? id) eqn:E; [|reflexivity].
  apply Z.eqb_eq in E. tauto.
Qed.

Lemma assigned_Some_In df : forall run id d,
  assigned df run id = Some d -> In id (map Id df).
Proof.
  induction df as [|row df IH]; intros run id d; simpl; [discriminate|].
  destruct (assigned df _ id) eqn:E.
  - intros _. right. eapply IH, E.
  - destruct (Id row =? id) eqn:E'; [|discriminate].
    apply Z.eqb_eq in E'. now left.
Qed.

(** The loop only looks at the keys and the signed amounts of the frame. *)
Lemma assigned_ext df df' :
  map Id df = map Id df' ->
  map signed_amount df = map signed_amount df' ->
  forall run id, assigned df run id = assigned df' run id.
Proof.
  revert df'. induction df as [|row df IH]; intros [|row' df']; simpl;
    try discriminate; [reflexivity|].
  intros HI HS run id. injection HI as HI1 HI2. injection HS as HS1 HS2.
  rewrite HS1, HI1, (IH df' HI2 HS2). reflexivity.
Qed.

(** With distinct keys, the row at position [k] of the frame receives the
    running total of the first [k+1] signed amounts. *)
Lemma assigned_nth df : forall run k x,
  primary_key df ->
  nth_error df k = Some x ->
  assigned df run (Id x)
  = Some (fold_left PrimFloat.add (firstn (S k) (map signed_amount df)) run).
Proof.
  unfold primary_key.
  induction df as [|row df IH]; intros run k x Hnd Hk.
  - now destruct k.
  - inversion Hnd as [|? ? Hrow Hdf]; subst.
    destruct k as [|k]; simpl in Hk.
    + injection Hk as ->. cbn [assigned].
      rewrite assigned_None by assumption.
      rewrite Z.eqb_refl. reflexivity.
    + cbn [assigned]. rewrite (IH _ k x Hdf Hk). reflexivity.
Qed.

(** ** The Credit rows of a buyer after a recalculation *)

Lemma iterrows_row_nil_id l : map (iterrows_row [] 0) l = l.
Proof. apply map_id. Qed.

Lemma recalculate_table_map t b :
  recalculate_table t b = map (iterrows_row (select_credit t b) 0) t.
Proof.
  unfold recalculate_table. destruct (select_credit t b) eqn:E.
  - now rewrite iterrows_row_nil_id.
  - apply iterrows_map.
Qed.

Lemma select_credit_recalculate t b b' :
  select_credit (recalculate_table t b) b'
  = map (iterrows_row (select_credit t b) 0) (select_credit t b').
Proof.
  rewrite recalculate_table_map.
  apply select_credit_map, iterrows_row_keeps.
Qed.

Lemma select_credit_is_Credit t b x :
  In x (select_credit t b) -> is_Credit (DebitCredit x) = true.
Proof.
  intros H. apply select_credit_In in H. destruct H as [_ H].
  apply credit_of_true in H. now rewrite (proj1 H).
Qed.

Lemma iterrows_row_nth t b k x :
  primary_key t ->
  nth_error (select_credit t b) k = Some x ->
  iterrows_row (select_credit t b) 0 x
  = set_Debt (prefix_sum (map Amount (select_credit t b)) (S k)) x.
Proof.
  intros Hpk Hk. rewrite iterrows_row_assigned.
  rewrite (select_credit_is_Credit t b x) by (eapply nth_error_In, Hk).
  rewrite (assigned_nth _ 0 k x) by (auto using primary_key_select_credit).
  rewrite select_credit_signed. reflexivity.
Qed.

Lemma nth_error_prefix_sums l k :
  nth_error (prefix_sums l) k
  = if (k <? List.length l)%nat then Some (prefix_sum l (S k)) else None.
Proof.
  unfold prefix_sums. rewrite nth_error_map, nth_error_seq.
  now destruct (k <? List.length l)%nat.
Qed.

Lemma recalculate_table_Debts t b :
  primary_key t ->
  map Debt (select_credit (recalculate_table t b) b)
  = prefix_sums (map Amount (select_credit t b)).
Proof.
  intros Hpk. rewrite select_credit_recalculate.
  apply nth_error_ext. intros k.
  rewrite nth_error_prefix_sums, length_map, !nth_error_map.
  destruct (nth_error (select_credit t b) k) as [x|] eqn:Hk; simpl.
  - rewrite (iterrows_row_nth t b k x Hpk Hk), set_Debt_Debt.
    assert (Hlt : (k < List.length (select_credit t b))%nat)
      by (apply nth_error_Some; congruence).
    apply Nat.ltb_lt in Hlt. now rewrite Hlt.
  - apply nth_error_None in Hk. apply Nat.ltb_ge in Hk. now rewrite Hk.
Qed.

Lemma recalculate_table_Amounts t b b' :
  map Amount (select_credit (recalculate_table t b) b')
  = map Amount (select_credit t b').
Proof.
  rewrite select_credit_recalculate, map_map.
  apply map_ext. intros r. apply keeps_columns_Amount, iterrows_row_keeps.
Qed.

Lemma recalculate_table_Ids t b b' :
  map Id (select_credit (recalculate_table t b) b')
  = map Id (select_credit t b').
Proof.
  rewrite select_credit_recalculate, map_map.
  apply map_ext. intros r. apply keeps_columns_Id, iterrows_row_keeps.
Qed.

Lemma recalculate_table_invariant t b :
  primary_key t -> prefix_sum_invariant (recalculate_table t b) b.
Proof.
  intros Hpk. unfold prefix_sum_invariant.
  now rewrite recalculate_table_Debts, recalculate_table_Amounts.
Qed.

Lemma recalculate_table_primary_key t b :
  primary_key t -> primary_key (recalculate_table t b).
Proof.
  rewrite recalculate_table_map. apply primary_key_map, iterrows_row_keeps.
Qed.

(** C1. After [recalculate_debts conn buyer_name] on a ledger whose [Id]s
    are distinct, the buyer's Credit rows taken in ascending [Id] are the
    same rows as before (same keys, same amounts [a1..an]) and the row at
    position [k] (counted from 1) has [Debt = a1 + ... + ak], for every
    [k] from 1 to [n] and every [n >= 0]. The sum is the running total of
    the code: binary64 additions from [0.0], left to right. *)
Theorem recalculate_debts_prefix_sum (conn : Db) (buyer_name : string) :
  primary_key (DailySheet conn) ->
  let before := select_credit (DailySheet conn) buyer_name in
  let after :=
    select_credit (DailySheet (recalculate_debts conn buyer_name)) buyer_name in
  credit_sequence (DailySheet conn) buyer_name before /\
  credit_sequence (DailySheet (recalculate_debts conn buyer_name)) buyer_name
                  after /\
  map Id after = map Id before /\
  map Amount after = map Amount before /\
  map Debt after = prefix_sums (map Amount before) /\
  forall (k : nat) (row : Row),
    nth_error after k = Some row ->
    Debt row = running_total (firstn (S k) (map Amount before)).
Proof.
  intros Hpk before after. subst before after.
  split; [now apply select_credit_sequence|].
  split.
  { apply select_credit_sequence. rewrite recalculate_debts_table.
    now apply recalculate_table_primary_key. }
  rewrite recalculate_debts_table.
  split; [apply recalculate_table_Ids|].
  split; [apply recalculate_table_Amounts|].
  split; [now apply recalculate_table_Debts|].
  intros k row Hk.
  rewrite select_credit_recalculate, nth_error_map in Hk.
  destruct (nth_error (select_credit (DailySheet conn) buyer_name) k)
    as [x|] eqn:Hx; [|discriminate].
  simpl in Hk. injection Hk as <-.
  now rewrite (iterrows_row_nth _ _ k x Hpk Hx).
Qed.

Ltac solve_primary_key :=
  unfold primary_key; simpl;
  repeat (constructor; [simpl; intuition discriminate|]); constructor.

Lemma ledger_B1_primary_key : primary_key (DailySheet ledger_B1).
Proof. solve_primary_key. Defined.

Lemma ledger_rounding_primary_key : primary_key (DailySheet ledger_rounding).
Proof. solve_primary_key. Defined.

Lemma recalculate_debts_prefix_sum_witness :
  primary_key (DailySheet ledger_B1) /\
  map Debt (select_credit (DailySheet (recalculate_debts ledger_B1 "B1")) "B1")
  = [100; 300]%float /\
  let after :=
    select_credit (DailySheet (recalculate_debts ledger_rounding "B1")) "B1" in
  map Id after = [1; 2; 3] /\
  map Debt after
  = [9007199254740992; 9007199254740992; 9007199254740992]%float.
Proof.
  split; [exact ledger_B1_primary_key|]. split.
  - destruct (recalculate_debts_prefix_sum ledger_B1 "B1"
                ledger_B1_primary_key) as (_ & _ & _ & _ & HD & _).
    rewrite HD. reflexivity.
  - destruct (recalculate_debts_prefix_sum ledger_rounding "B1"
                ledger_rounding_primary_key) as (_ & _ & HI & _ & HD & _).
    split.
    + etransitivity; [exact HI|reflexivity].
    + etransitivity; [exact HD|reflexivity].
Defined.

(** ** Idempotence *)

Lemma recalculate_table_idem t b :
  recalculate_table (recalculate_table t b) b = recalculate_table t b.
Proof.
  rewrite (recalculate_table_map (recalculate_table t b)).
  rewrite select_credit_recalculate.
  rewrite (recalculate_table_map t b) at 1 2.
  rewrite map_map. apply map_ext. intros r.
  set (df := select_credit t b). set (g := iterrows_row df 0).
  assert (Hg : keeps_columns g) by apply iterrows_row_keeps.
  rewrite iterrows_row_assigned.
  rewrite (assigned_ext (map g df) df).
  - pose proof (iterrows_row_assigned df 0 r) as E. fold g in E.
    destruct (same_but_Debt_fields _ _ (Hg r))
      as (FI & _ & _ & _ & _ & _ & _ & FD & _).
    rewrite FI, FD.
    destruct (is_Credit (DebitCredit r)); [|reflexivity].
    destruct (assigned df 0 (Id r)) as [d|]; [|reflexivity].
    rewrite E. apply set_Debt_twice.
  - rewrite map_map. apply map_ext. intros x. now apply keeps_columns_Id.
  - rewrite map_map. apply map_ext. intros x. now apply keeps_columns_signed.
Qed.

(** C4. Running [recalculate_debts] for the same buyer twice in a row
    leaves the connection exactly as the first run left it: the second
    call changes nothing, on any ledger state. *)
Theorem recalculate_debts_idempotent (conn : Db) (buyer_name : string) :
  recalculate_debts (recalculate_debts conn buyer_name) buyer_name
  = recalculate_debts conn buyer_name.
Proof.
  rewrite (recalculate_debts_eq (recalculate_debts conn buyer_name)).
  rewrite recalculate_debts_table, recalculate_table_idem.
  rewrite recalculate_debts_eq. reflexivity.
Qed.

(** ** The loop and its simplification *)

Lemma iterrows_simplified_eq df : forall run t,
  Forall (fun r => DebitCredit r = Credit) df ->
  iterrows df run t = iterrows_simplified df run t.
Proof.
  induction df as [|row df IH]; intros run t H; simpl; [reflexivity|].
  inversion H as [|? ? Hrow Hdf]; subst.
  unfold signed_amount. rewrite Hrow. now apply IH.
Qed.

Lemma select_credit_Forall_Credit t b :
  Forall (fun r => DebitCredit r = Credit) (select_credit t b).
Proof.
  apply Forall_forall. intros r Hr.
  apply select_credit_In in Hr. destruct Hr as [_ Hr].
  now apply credit_of_true in Hr.
Qed.

(** C10. On every connection and for every buyer, [recalculate_debts]
    equals the simplified function that adds each fetched row's [Amount] to
    the running total without looking at its direction: the fetch keeps
    Credit rows only, so the negating branch is never taken. *)
Theorem recalculate_debts_simplified_equal (conn : Db) (buyer_name : string) :
  recalculate_debts conn buyer_name
  = recalculate_debts_simplified conn buyer_name /\
  Forall (fun row => DebitCredit row = Credit /\
                     signed_amount row = Amount row)
         (select_credit (DailySheet conn) buyer_name).
Proof.
  split.
  - unfold recalculate_debts, recalculate_debts_simplified.
    pose proof (select_credit_Forall_Credit (DailySheet conn) buyer_name) as H.
    destruct (select_credit (DailySheet conn) buyer_name); [reflexivity|].
    now rewrite iterrows_simplified_eq.
  - eapply Forall_impl; [|apply select_credit_Forall_Credit].
    intros r Hr. unfold signed_amount. now rewrite Hr.
Qed.

(** ** What a recalculation leaves alone *)

Lemma iterrows_row_frame t b r :
  primary_key t -> In r t -> credit_of b r = false ->
  iterrows_row (select_credit t b) 0 r = r.
Proof.
  intros Hpk Hr Hc. rewrite iterrows_row_assigned.
  destruct (is_Credit (DebitCredit r)); [|reflexivity].
  destruct (assigned (select_credit t b) 0 (Id r)) as [d|] eqn:E;
    [|reflexivity].
  apply assigned_Some_In, in_map_iff in E. destruct E as (x & Ex & Hx).
  apply select_credit_In in Hx. destruct Hx as [Hx Hcx].
  rewrite (primary_key_inj t x r Hpk Hx Hr Ex) in Hcx. congruence.
Qed.

Lemma iterrows_row_Debit df run r :
  DebitCredit r = Debit -> iterrows_row df run r = r.
Proof. intros H. rewrite iterrows_row_assigned. now rewrite H. Qed.

Lemma Forall2_map_r_in {A B} (P : A -> B -> Prop) (g : A -> B) l :
  (forall x, In x l -> P x (g x)) -> Forall2 P l (map g l).
Proof.
  induction l as [|x l IH]; simpl; intros H; constructor; auto.
Qed.

Lemma credit_of_false b r :
  DebitCredit r = Debit \/ BuyerName r <> b -> credit_of b r = false.
Proof.
  intros H. destruct (credit_of b r) eqn:E; [|reflexivity].
  apply credit_of_true in E. destruct E as [E1 E2].
  destruct H as [H|H]; [rewrite H in E1; discriminate|contradiction].
Qed.

(** C6. [recalculate_debts conn buyer_name] keeps the table row for row
    and writes at most the [Debt] column: each row keeps every other
    column; a Debit row or a row of another buyer is left as it is; the
    rest of the connection is untouched; and when the buyer has no Credit
    row the connection as a whole is returned unchanged. *)
Theorem recalculate_debts_frame (conn : Db) (buyer_name : string) :
  primary_key (DailySheet conn) ->
  Forall2 (fun r r' =>
             same_but_Debt r r' /\
             (DebitCredit r = Debit \/ BuyerName r <> buyer_name -> r' = r))
          (DailySheet conn)
          (DailySheet (recalculate_debts conn buyer_name)) /\
  DailySheet_seq (recalculate_debts conn buyer_name) = DailySheet_seq conn /\
  customers (recalculate_debts conn buyer_name) = customers conn /\
  flowers (recalculate_debts conn buyer_name) = flowers conn /\
  buyers (recalculate_debts conn buyer_name) = buyers conn /\
  (select_credit (DailySheet conn) buyer_name = [] ->
   recalculate_debts conn buyer_name = conn).
Proof.
  intros Hpk. split.
  - rewrite recalculate_debts_table, recalculate_table_map.
    apply Forall2_map_r_in. intros r Hr. split.
    + apply iterrows_row_keeps.
    + intros H. apply iterrows_row_frame; auto using credit_of_false.
  - rewrite recalculate_debts_eq.
    split; [reflexivity|]. split; [reflexivity|].
    split; [reflexivity|]. split; [reflexivity|].
    rewrite <- recalculate_debts_eq.
    unfold recalculate_debts. intros E. now rewrite E.
Qed.

Lemma recalculate_debts_frame_witness :
  primary_key (DailySheet ledger_B1) /\
  DailySheet (recalculate_debts ledger_B1 "B1")
  = [ mkRow 1 "2024-03-02" "Anbu" "Rose" 10 10 100 Credit 100 "B1";
      mkRow 2 "2024-03-02" "Anbu" "Rose" 5 10 50 Debit (-50) "B1";
      mkRow 3 "2024-03-01" "Anbu" "Lily" 20 10 200 Credit 300 "B1";
      mkRow 4 "2024-03-03" "Mala" "Rose" 4 10 40 Credit 40 "B2" ] /\
  recalculate_debts ledger_B1 "B3" = ledger_B1.
Proof.
  split; [exact ledger_B1_primary_key|].
  split; [reflexivity|].
  apply (recalculate_debts_frame ledger_B1 "B3" ledger_B1_primary_key).
  reflexivity.
Defined.

(** ** The add form *)

Lemma add_transaction_accepted conn f :
  accepted f = true ->
  add_transaction conn f
  = (recalculate_debts
       (mkDb (DailySheet conn ++ [inserted_row conn f]) (next_Id conn)
             (customers conn) (flowers conn) (buyers conn))
       (add_buyer_name f),
     [st_success "Transaction added successfully!"]).
Proof.
  unfold accepted, add_transaction. intros H.
  apply andb_true_iff in H. destruct H as [H1 H2].
  rewrite H1. apply negb_true_iff in H2. rewrite H2. reflexivity.
Qed.

Lemma add_transaction_not_accepted conn f :
  accepted f = false -> fst (add_transaction conn f) = conn.
Proof.
  unfold accepted, add_transaction. intros H.
  destruct (submit_add f && truthy (add_name f) && truthy (add_flower_name f));
    [|reflexivity].
  simpl in H. apply negb_false_iff in H. now rewrite H.
Qed.

Lemma truthy_false s : truthy s = false <-> s = "".
Proof.
  unfold truthy. rewrite negb_false_iff. apply String.eqb_eq.
Qed.

Lemma truthy_true s : truthy s = true <-> s <> "".
Proof.
  unfold truthy. rewrite negb_true_iff. apply String.eqb_neq.
Qed.

(** C7 as amended. A submission with direction Credit and an empty buyer
    name never writes to the connection. It is answered with the error
    message "Buyer Name is required ..." exactly when the customer name and
    the flower name are both filled in; with either of them empty the page
    ignores the submission without any message. *)
Theorem add_transaction_credit_without_buyer (conn : Db) (f : AddForm) :
  add_debit_credit f = Credit ->
  add_buyer_name f = "" ->
  fst (add_transaction conn f) = conn /\
  snd (add_transaction conn f)
  = (if submit_add f && truthy (add_name f) && truthy (add_flower_name f)
     then [st_error buyer_required] else []).
Proof.
  intros Hc Hb. unfold add_transaction. rewrite Hc, Hb. simpl.
  now destruct (submit_add f && truthy (add_name f)
                && truthy (add_flower_name f)).
Qed.

(** ** Fresh keys *)

Lemma max_Id_bound t r : In r t -> Id r <= max_Id t.
Proof.
  induction t as [|x t IH]; simpl; [easy|].
  intros [->|H]; [|specialize (IH H)]; lia.
Qed.

Lemma next_Id_fresh conn r : In r (DailySheet conn) -> Id r < next_Id conn.
Proof.
  intros H. apply max_Id_bound in H. unfold next_Id. lia.
Qed.

Lemma insert_by_Id_last a s x :
  Id a < Id x -> insert_by_Id a (s ++ [x]) = insert_by_Id a s ++ [x].
Proof.
  intros Hlt. induction s as [|y s IH]; simpl.
  - destruct (Id a <=? Id x) eqn:E; [reflexivity|].
    apply Z.leb_gt in E. lia.
  - destruct (Id a <=? Id y); [reflexivity|]. now rewrite IH.
Qed.

Lemma order_by_Id_last l x :
  (forall r, In r l -> Id r < Id x) ->
  order_by_Id (l ++ [x]) = order_by_Id l ++ [x].
Proof.
  induction l as [|a l IH]; intros H; [reflexivity|].
  change (insert_by_Id a (order_by_Id (l ++ [x]))
          = insert_by_Id a (order_by_Id l) ++ [x]).
  rewrite IH by (intros r Hr; apply H; now right).
  apply insert_by_Id_last, H. now left.
Qed.

Lemma select_credit_last t x b :
  (forall r, In r t -> Id r < Id x) ->
  select_credit (t ++ [x]) b
  = select_credit t b ++ (if credit_of b x then [x] else []).
Proof.
  intros H. unfold select_credit. rewrite filter_app. simpl.
  destruct (credit_of b x).
  - apply order_by_Id_last. intros r Hr. apply filter_In in Hr. now apply H.
  - now rewrite !app_nil_r.
Qed.

Lemma primary_key_last t x :
  primary_key t -> (forall r, In r t -> Id r < Id x) ->
  primary_key (t ++ [x]).
Proof.
  unfold primary_key. intros Hpk H.
  rewrite map_app. simpl.
  eapply Permutation_NoDup; [apply Permutation_cons_append|].
  constructor; [|assumption].
  intros Hin. apply in_map_iff in Hin. destruct Hin as (r & E & Hr).
  specialize (H r Hr). lia.
Qed.

Lemma primary_key_map_Id g t :
  (forall r, Id (g r) = Id r) -> primary_key t -> primary_key (map g t).
Proof.
  unfold primary_key. intros Hg H. rewrite map_map.
  erewrite map_ext; [exact H|]. exact Hg.
Qed.

(** ** Debit rows persist *)

Lemma recalculate_debts_keeps_Debit conn b r :
  In r (DailySheet conn) -> DebitCredit r = Debit ->
  In r (DailySheet (recalculate_debts conn b)).
Proof.
  intros Hr Hd. rewrite recalculate_debts_table, recalculate_table_map.
  apply in_map_iff. exists r. split; [|assumption].
  now apply iterrows_row_Debit.
Qed.

Lemma add_transaction_keeps conn f r :
  In r (DailySheet conn) -> DebitCredit r = Debit ->
  In r (DailySheet (fst (add_transaction conn f))).
Proof.
  intros Hr Hd. destruct (accepted f) eqn:E.
  - rewrite add_transaction_accepted by assumption. simpl.
    apply recalculate_debts_keeps_Debit; [|assumption].
    simpl. apply in_or_app. now left.
  - now rewrite add_transaction_not_accepted.
Qed.

Lemma update_DailySheet_other t d n fl q ra am dc de b id r :
  In r t -> Id r <> id ->
  In r (update_DailySheet t d n fl q ra am dc de b id).
Proof.
  intros Hr Hid. unfold update_DailySheet. apply in_map_iff.
  exists r. split; [|assumption].
  apply Z.eqb_neq in Hid. now rewrite Hid.
Qed.

Lemma delete_DailySheet_other t id r :
  In r t -> Id r <> id -> In r (delete_DailySheet t id).
Proof.
  intros Hr Hid. unfold delete_DailySheet. apply filter_In.
  split; [assumption|]. apply Z.eqb_neq in Hid. now rewrite Hid.
Qed.

Lemma edit_transaction_keeps conn selected_id f r conn' msgs :
  edit_transaction conn selected_id f = Some (conn', msgs) ->
  In r (DailySheet conn) -> DebitCredit r = Debit -> Id r <> selected_id ->
  In r (DailySheet conn').
Proof.
  unfold edit_transaction. intros He Hr Hd Hid.
  destruct (DailySheet conn) as [|r0 t0] eqn:Et; [now injection He as <- _|].
  rewrite <- Et in *. clear Et r0 t0.
  destruct (selected_id =? 0); [now injection He as <- _|].
  destruct (fetchone_by_Id (DailySheet conn) selected_id) as [cur|];
    [|discriminate].
  destruct (index (Name cur) (customers conn)); [|discriminate].
  destruct (index (FlowerName cur) (flowers conn)); [|discriminate].
  destruct (index (BuyerName cur) (buyers conn)); [|discriminate].
  destruct (edit_button f); injection He as <- _.
  - assert (H1 : In r (DailySheet (recalculate_debts
                                     (execute_update conn cur f selected_id)
                                     (BuyerName cur)))).
    { apply recalculate_debts_keeps_Debit; [|assumption].
      simpl. now apply update_DailySheet_other. }
    destruct (negb (edit_buyer_name f =? BuyerName cur)%string);
      [now apply recalculate_debts_keeps_Debit|assumption].
  - apply recalculate_debts_keeps_Debit; [|assumption].
    simpl. now apply delete_DailySheet_other.
  - assumption.
Qed.

Lemma run_action_keeps conn a r :
  In r (DailySheet conn) -> DebitCredit r = Debit -> leaves_row (Id r) a ->
  In r (DailySheet (run_action conn a)).
Proof.
  intros Hr Hd Ha. destruct a as [f|selected_id f|b]; simpl in *.
  - now apply add_transaction_keeps.
  - destruct (edit_transaction conn selected_id f) as [[conn' msgs]|] eqn:E;
      [|assumption].
    eapply edit_transaction_keeps; eauto.
  - now apply recalculate_debts_keeps_Debit.
Qed.

Lemma run_actions_keeps l : forall conn r,
  In r (DailySheet conn) -> DebitCredit r = Debit ->
  Forall (leaves_row (Id r)) l ->
  In r (DailySheet (run_actions conn l)).
Proof.
  induction l as [|a l IH]; intros conn r Hr Hd Hl; [assumption|].
  inversion Hl as [|? ? Ha Hl']; subst.
  unfold run_actions. simpl. apply IH; auto using run_action_keeps.
Qed.

(** C9. An accepted Debit submission stores the row with [Debt] equal to
    the negated amount, whatever the buyer's balance was; the recalculation
    that follows the insert leaves it so, and so does every later
    recalculation pass for any buyer, on its own or inside a later add,
    update or delete of another row. *)
Theorem add_transaction_Debit_persists
    (conn : Db) (f : AddForm) (l : list Action) :
  submit_add f = true -> add_name f <> "" -> add_flower_name f <> "" ->
  add_debit_credit f = Debit ->
  Forall (leaves_row (next_Id conn)) l ->
  let row := inserted_row conn f in
  Amount row = (add_qty f * add_rate f)%float /\
  Debt row = (- Amount row)%float /\
  In row (DailySheet (fst (add_transaction conn f))) /\
  (forall buyer_names,
     In row (DailySheet (fold_left recalculate_debts buyer_names
                           (fst (add_transaction conn f))))) /\
  In row (DailySheet (run_actions (fst (add_transaction conn f)) l)).
Proof.
  intros Hs Hn Hf Hd Hl row.
  assert (Hrow : DebitCredit row = Debit) by exact Hd.
  assert (Hacc : accepted f = true).
  { unfold accepted. rewrite Hs, Hd.
    apply truthy_true in Hn, Hf. now rewrite Hn, Hf. }
  assert (Hin : In row (DailySheet (fst (add_transaction conn f)))).
  { rewrite add_transaction_accepted by assumption. simpl.
    apply recalculate_debts_keeps_Debit; [|assumption].
    simpl. apply in_or_app. right. now left. }
  split; [reflexivity|].
  split; [unfold row, inserted_row, add_new_debt; simpl; now rewrite Hd|].
  split; [assumption|]. split.
  - intros bs. revert Hin.
    generalize (fst (add_transaction conn f)) as c.
    induction bs as [|b bs IH]; intros c Hc; [assumption|].
    simpl. apply IH. now apply recalculate_debts_keeps_Debit.
  - now apply run_actions_keeps.
Qed.

(** ** Prefix sums *)

Lemma running_total_snoc l a :
  running_total (l ++ [a]) = (running_total l + a)%float.
Proof. unfold running_total. now rewrite fold_left_app. Qed.

Lemma prefix_sum_app_le l l' k :
  (k <= List.length l)%nat -> prefix_sum (l ++ l') k = prefix_sum l k.
Proof.
  intros H. unfold prefix_sum. rewrite firstn_app.
  replace (k - List.length l)%nat with 0%nat by lia.
  simpl. now rewrite app_nil_r.
Qed.

Lemma prefix_sum_all l : prefix_sum l (List.length l) = running_total l.
Proof. unfold prefix_sum. now rewrite firstn_all. Qed.

Lemma prefix_sums_snoc l a :
  prefix_sums (l ++ [a]) = prefix_sums l ++ [(running_total l + a)%float].
Proof.
  unfold prefix_sums. rewrite length_app. simpl.
  rewrite seq_app, map_app. simpl. f_equal.
  - apply map_ext_in. intros k Hk. apply in_seq in Hk.
    apply prefix_sum_app_le. lia.
  - replace (S (List.length l)) with (List.length (l ++ [a]))
      by (rewrite length_app; simpl; lia).
    now rewrite prefix_sum_all, running_total_snoc.
Qed.

Lemma prefix_sum_invariant_nth t b k r :
  prefix_sum_invariant t b ->
  nth_error (select_credit t b) k = Some r ->
  Debt r = prefix_sum (map Amount (select_credit t b)) (S k).
Proof.
  unfold prefix_sum_invariant. intros Hinv Hk.
  assert (E : nth_error (map Debt (select_credit t b)) k = Some (Debt r))
    by (rewrite nth_error_map, Hk; reflexivity).
  rewrite Hinv, nth_error_prefix_sums in E.
  destruct (k <? _)%nat; congruence.
Qed.

(** ** Inserting a Credit row *)

Section Insert_Credit.

Variables (conn : Db) (f : AddForm).
Hypothesis Hpk : primary_key (DailySheet conn).
Hypothesis Hacc : accepted f = true.
Hypothesis Hcredit : add_debit_credit f = Credit.

Let b := add_buyer_name f.
Let before := select_credit (DailySheet conn) b.
Let new0 := inserted_row conn f.
Let t1 := DailySheet conn ++ [new0].
Let df1 := before ++ [new0].

Local Lemma insert_fresh r : In r (DailySheet conn) -> Id r < Id new0.
Proof. apply next_Id_fresh. Qed.

Local Lemma insert_credit_of : credit_of b new0 = true.
Proof.
  apply credit_of_true. split; [exact Hcredit|reflexivity].
Qed.

Local Lemma insert_select : select_credit t1 b = df1.
Proof.
  unfold t1, df1. rewrite select_credit_last by exact insert_fresh.
  now rewrite insert_credit_of.
Qed.

Local Lemma insert_primary_key : primary_key t1.
Proof. apply primary_key_last; [exact Hpk|exact insert_fresh]. Qed.

Local Lemma insert_table :
  DailySheet (fst (add_transaction conn f)) = recalculate_table t1 b.
Proof.
  rewrite add_transaction_accepted by exact Hacc. simpl.
  now rewrite recalculate_debts_table.
Qed.

Local Lemma insert_Amounts :
  map Amount df1 = map Amount before ++ [add_amount f].
Proof. unfold df1. now rewrite map_app. Qed.

Lemma insert_Credit_Ids :
  map Id (select_credit (DailySheet (fst (add_transaction conn f))) b)
  = map Id before ++ [next_Id conn].
Proof.
  rewrite insert_table, recalculate_table_Ids, insert_select.
  unfold df1. now rewrite map_app.
Qed.

Lemma insert_Credit_Debts :
  map Debt (select_credit (DailySheet (fst (add_transaction conn f))) b)
  = prefix_sums (map Amount before)
    ++ [(running_total (map Amount before) + add_amount f)%float].
Proof.
  rewrite insert_table.
  rewrite recalculate_table_Debts by exact insert_primary_key.
  rewrite insert_select, insert_Amounts. apply prefix_sums_snoc.
Qed.

Lemma insert_Credit_balanced :
  prefix_sum_invariant (DailySheet conn) b ->
  DailySheet (fst (add_transaction conn f))
  = DailySheet conn
    ++ [set_Debt (running_total (map Amount before) + add_amount f)%float
                 new0].
Proof.
  intros Hinv. rewrite insert_table, recalculate_table_map, insert_select.
  unfold t1. rewrite map_app. simpl. f_equal.
  - rewrite <- (map_id (DailySheet conn)) at 2.
    apply map_ext_in. intros r Hr.
    destruct (credit_of b r) eqn:Hc.
    + assert (Hin : In r before) by (apply select_credit_In; auto).
      apply In_nth_error in Hin. destruct Hin as [k Hk].
      assert (Hlt : (k < List.length before)%nat)
        by (apply nth_error_Some; congruence).
      rewrite <- insert_select.
      rewrite (iterrows_row_nth t1 b k r insert_primary_key).
      * rewrite insert_select, insert_Amounts.
        rewrite prefix_sum_app_le by (rewrite length_map; lia).
        pose proof (prefix_sum_invariant_nth _ _ _ _ Hinv Hk) as E.
        change (Debt r = prefix_sum (map Amount before) (S k)) in E.
        rewrite <- E.
        apply set_Debt_self.
      * rewrite insert_select. unfold df1.
        now rewrite nth_error_app1.
    + rewrite <- insert_select.
      apply iterrows_row_frame; [exact insert_primary_key| |exact Hc].
      unfold t1. apply in_or_app. now left.
  - f_equal. rewrite <- insert_select.
    rewrite (iterrows_row_nth t1 b (List.length before) new0
               insert_primary_key).
    + rewrite insert_select, insert_Amounts. f_equal.
      replace (S (List.length before))
        with (List.length (map Amount before ++ [add_amount f]))
        by (rewrite length_app, length_map; simpl; lia).
      now rewrite prefix_sum_all, running_total_snoc.
    + rewrite insert_select. unfold df1.
      rewrite nth_error_app2 by lia. now rewrite Nat.sub_diag.
Qed.

End Insert_Credit.

Lemma accepted_Credit f :
  submit_add f = true -> add_name f <> "" -> add_flower_name f <> "" ->
  add_buyer_name f <> "" -> accepted f = true.
Proof.
  intros Hs Hn Hf Hb. unfold accepted.
  apply truthy_true in Hn, Hf, Hb. rewrite Hs, Hn, Hf, Hb.
  now destruct (add_debit_credit f).
Qed.

(** C5. The running-sum order is the order of [Id], not of [Date]. The
    buyer's sequence, before and after, is the buyer's Credit rows in
    strictly ascending [Id]. An accepted Credit submission, whatever its
    date (so also one dated before every stored row), gets the next [Id]
    and therefore the last place in that sequence: the existing rows keep
    their places and receive the running totals of the old amounts, the
    new row receives the running total of all the old amounts plus its
    own, added in binary64 from left to right. When the buyer's rows were
    already balanced, the table after the insert and its recalculation is
    the old table, unchanged in every row, followed by the new row. *)
Theorem add_transaction_Credit_appends (conn : Db) (f : AddForm) :
  primary_key (DailySheet conn) ->
  submit_add f = true -> add_name f <> "" -> add_flower_name f <> "" ->
  add_debit_credit f = Credit -> add_buyer_name f <> "" ->
  let b := add_buyer_name f in
  let before := select_credit (DailySheet conn) b in
  let after := select_credit (DailySheet (fst (add_transaction conn f))) b in
  let total :=
    (running_total (map Amount before) + add_qty f * add_rate f)%float in
  let row := mkRow (next_Id conn) (add_date f) (add_name f)
                   (add_flower_name f) (add_qty f) (add_rate f)
                   (add_qty f * add_rate f) Credit total b in
  credit_sequence (DailySheet conn) b before /\
  credit_sequence (DailySheet (fst (add_transaction conn f))) b after /\
  map Id after = map Id before ++ [next_Id conn] /\
  map Debt after = prefix_sums (map Amount before) ++ [total] /\
  (prefix_sum_invariant (DailySheet conn) b ->
   DailySheet (fst (add_transaction conn f)) = DailySheet conn ++ [row] /\
   after = before ++ [row]).
Proof.
  intros Hpk Hs Hn Hf Hc Hb b before after total row.
  assert (Hacc : accepted f = true) by now apply accepted_Credit.
  split; [now apply select_credit_sequence|].
  split.
  { apply select_credit_sequence.
    rewrite add_transaction_accepted by exact Hacc. simpl.
    rewrite recalculate_debts_table. apply recalculate_table_primary_key.
    apply primary_key_last; [exact Hpk|apply next_Id_fresh]. }
  split; [now apply insert_Credit_Ids|].
  split; [now apply insert_Credit_Debts|].
  intros Hinv.
  assert (Hrow : set_Debt total (inserted_row conn f) = row).
  { unfold row, inserted_row, set_Debt. simpl. now rewrite Hc. }
  assert (Ht : DailySheet (fst (add_transaction conn f))
               = DailySheet conn ++ [row]).
  { rewrite <- Hrow. now apply insert_Credit_balanced. }
  split; [exact Ht|].
  unfold after. rewrite Ht.
  rewrite select_credit_last.
  - replace (credit_of b row) with true; [reflexivity|].
    symmetry. now apply credit_of_true.
  - intros r Hr. now apply next_Id_fresh.
Qed.

Lemma ledger_B1_balanced_primary_key :
  primary_key (DailySheet ledger_B1_balanced).
Proof. solve_primary_key. Defined.

(** ** Sorting and filtering commute *)

Lemma insert_by_Id_least a l :
  (forall y, In y l -> Id a <= Id y) -> insert_by_Id a l = a :: l.
Proof.
  destruct l as [|x l]; simpl; [reflexivity|]. intros H.
  replace (Id a <=? Id x) with true; [reflexivity|].
  symmetry. apply Z.leb_le, H. now left.
Qed.

Lemma filter_insert_by_Id p a s :
  ascending s ->
  filter p (insert_by_Id a s)
  = if p a then insert_by_Id a (filter p s) else filter p s.
Proof.
  induction s as [|x s IH]; simpl.
  - now destruct (p a).
  - intros [Hx Hs]. destruct (Id a <=? Id x) eqn:E; simpl.
    + destruct (p a); [|reflexivity].
      destruct (p x); simpl; [now rewrite E|].
      symmetry. apply insert_by_Id_least. intros y Hy.
      apply filter_In in Hy. apply Z.leb_le in E.
      specialize (Hx y (proj1 Hy)). lia.
    + rewrite (IH Hs). destruct (p x), (p a); simpl; rewrite ?E; reflexivity.
Qed.

Lemma order_by_Id_filter p l :
  order_by_Id (filter p l) = filter p (order_by_Id l).
Proof.
  induction l as [|a l IH]; simpl; [reflexivity|].
  rewrite filter_insert_by_Id by apply order_by_Id_ascending.
  destruct (p a); simpl; now rewrite IH.
Qed.

Lemma filter_comm {A} (p q : A -> bool) l :
  filter p (filter q l) = filter q (filter p l).
Proof.
  induction l as [|x l IH]; simpl; [reflexivity|].
  destruct (p x) eqn:Ep, (q x) eqn:Eq; simpl; rewrite ?Ep, ?Eq, IH;
    reflexivity.
Qed.

(** The buyer's sequence after a DELETE is the old sequence without the
    deleted row. *)
Lemma select_credit_delete t id b :
  select_credit (delete_DailySheet t id) b
  = filter (other_than id) (select_credit t b).
Proof.
  unfold select_credit, delete_DailySheet.
  rewrite <- order_by_Id_filter. f_equal. apply filter_comm.
Qed.

(** In a buyer different from the one written by the UPDATE, the updated
    row is simply absent. *)
Lemma select_credit_update_other t d n fl q ra am dc de b' id b :
  b <> b' ->
  select_credit (update_DailySheet t d n fl q ra am dc de b' id) b
  = filter (other_than id) (select_credit t b).
Proof.
  intros Hb. rewrite <- select_credit_delete.
  unfold select_credit. f_equal.
  unfold update_DailySheet, delete_DailySheet.
  induction t as [|x t IH]; simpl; [reflexivity|].
  destruct (Id x =? id) eqn:E; simpl.
  - unfold credit_of at 1. simpl.
    replace (b' =? b)%string with false
      by (symmetry; apply String.eqb_neq; congruence).
    now rewrite andb_false_r.
  - destruct (credit_of b x); simpl; now rewrite IH.
Qed.

Lemma primary_key_split l x :
  primary_key l -> In x l ->
  exists l1 l2, l = l1 ++ x :: l2 /\
                filter (other_than (Id x)) l = l1 ++ l2.
Proof.
  intros Hpk Hx. destruct (in_split _ _ Hx) as (l1 & l2 & ->).
  exists l1, l2. split; [reflexivity|].
  assert (Hkeep : forall y, In y (l1 ++ l2) -> other_than (Id x) y = true).
  { intros y Hy. unfold other_than. apply negb_true_iff, Z.eqb_neq.
    intros E. unfold primary_key in Hpk. rewrite map_app in Hpk. simpl in Hpk.
    apply NoDup_remove_2 in Hpk. apply Hpk. rewrite <- map_app, <- E.
    now apply in_map. }
  rewrite filter_app. simpl. unfold other_than at 2.
  rewrite Z.eqb_refl. simpl. rewrite <- filter_app.
  apply forallb_filter_id. apply forallb_forall. exact Hkeep.
Qed.

(** ** The edit block *)

Lemma index_In x l : In x l -> exists n, index x l = Some n.
Proof.
  induction l as [|y l IH]; simpl; [easy|].
  intros H. destruct (y =? x)%string eqn:E; [now exists 0%nat|].
  destruct H as [->|H]; [now rewrite String.eqb_refl in E|].
  destruct (IH H) as [n ->]. now exists (S n).
Qed.

Lemma fetchone_by_Id_Some t id r :
  fetchone_by_Id t id = Some r -> In r t /\ Id r = id.
Proof.
  unfold fetchone_by_Id. intros H. apply find_some in H.
  now rewrite Z.eqb_eq in H.
Qed.

Section Edit.

Variables (conn : Db) (selected_id : Z) (f : EditForm) (current_data : Row).
Hypothesis Hsel : selected_id <> 0.
Hypothesis Hfetch :
  fetchone_by_Id (DailySheet conn) selected_id = Some current_data.
Hypothesis Hcustomer : In (Name current_data) (customers conn).
Hypothesis Hflower : In (FlowerName current_data) (flowers conn).
Hypothesis Hbuyer : In (BuyerName current_data) (buyers conn).

Lemma edit_transaction_renders :
  edit_transaction conn selected_id f
  = match edit_button f with
    | PressUpdate =>
        let conn1 := execute_update conn current_data f selected_id in
        let conn2 := recalculate_debts conn1 (BuyerName current_data) in
        Some (if negb (edit_buyer_name f =? BuyerName current_data)%string
              then recalculate_debts conn2 (edit_buyer_name f) else conn2,
              [st_success "Transaction updated successfully!"])
    | PressDelete =>
        Some (recalculate_debts (execute_delete conn selected_id)
                (BuyerName current_data), [])
    | NoPress => Some (conn, [])
    end.
Proof.
  unfold edit_transaction.
  destruct (fetchone_by_Id_Some _ _ _ Hfetch) as [Hin _].
  destruct (DailySheet conn) as [|r0 t0] eqn:Et; [destruct Hin|].
  rewrite <- Et in Hfetch |- *. apply Z.eqb_neq in Hsel.
  rewrite Hsel, Hfetch.
  destruct (index_In _ _ Hcustomer) as [n1 ->].
  destruct (index_In _ _ Hflower) as [n2 ->].
  destruct (index_In _ _ Hbuyer) as [n3 ->].
  reflexivity.
Qed.

End Edit.

(** ** Recalculating one buyer does not disturb another *)

Lemma recalculate_table_other t b b' :
  primary_key t -> b <> b' ->
  select_credit (recalculate_table t b) b' = select_credit t b'.
Proof.
  intros Hpk Hb. rewrite select_credit_recalculate.
  rewrite <- (map_id (select_credit t b')) at 2.
  apply map_ext_in. intros r Hr. apply select_credit_In in Hr.
  destruct Hr as [Hr Hc]. apply iterrows_row_frame; [assumption..|].
  apply credit_of_true in Hc. apply credit_of_false. right.
  destruct Hc as [_ ->]. congruence.
Qed.

Lemma prefix_sum_invariant_other t b b' :
  primary_key t -> b <> b' ->
  prefix_sum_invariant t b' ->
  prefix_sum_invariant (recalculate_table t b) b'.
Proof.
  intros Hpk Hb H. unfold prefix_sum_invariant.
  now rewrite recalculate_table_other.
Qed.

Lemma execute_update_primary_key conn cur f id :
  primary_key (DailySheet conn) ->
  primary_key (DailySheet (execute_update conn cur f id)).
Proof.
  intros Hpk. simpl. apply primary_key_map_Id; [|assumption].
  intros r. now destruct (Id r =? id).
Qed.

Lemma execute_delete_primary_key conn id :
  primary_key (DailySheet conn) ->
  primary_key (DailySheet (execute_delete conn id)).
Proof. intros Hpk. simpl. now apply primary_key_filter. Qed.

Lemma other_than_Ids id l :
  map Id (filter (other_than id) l)
  = filter (fun i => negb (i =? id)) (map Id l).
Proof.
  induction l as [|x l IH]; simpl; [reflexivity|].
  unfold other_than at 1. destruct (Id x =? id); simpl; now rewrite IH.
Qed.

(** C2. Pressing Update on a Credit transaction of buyer [A] with the
    buyer field changed to [B] runs the UPDATE, then [recalculate_debts]
    for [A] and then for [B]. In the resulting ledger each of the two
    sequences is the buyer's Credit rows in strictly ascending [Id], the
    edited row has left [A]'s sequence, which keeps its other rows, it
    stands in [B]'s sequence when it is still a Credit row, and both
    sequences satisfy the prefix-sum invariant: the k-th [Debt] is the
    binary64 running total, from left to right, of the first k amounts. *)
Theorem edit_transaction_moves_buyer
    (conn : Db) (selected_id : Z) (f : EditForm) (current_data : Row)
    (A B : string) :
  primary_key (DailySheet conn) ->
  selected_id <> 0 ->
  fetchone_by_Id (DailySheet conn) selected_id = Some current_data ->
  In (Name current_data) (customers conn) ->
  In (FlowerName current_data) (flowers conn) ->
  In A (buyers conn) ->
  DebitCredit current_data = Credit ->
  BuyerName current_data = A ->
  edit_buyer_name f = B ->
  A <> B ->
  edit_button f = PressUpdate ->
  let conn' :=
    recalculate_debts
      (recalculate_debts (execute_update conn current_data f selected_id) A)
      B in
  edit_transaction conn selected_id f
  = Some (conn', [st_success "Transaction updated successfully!"]) /\
  credit_sequence (DailySheet conn') A (select_credit (DailySheet conn') A) /\
  credit_sequence (DailySheet conn') B (select_credit (DailySheet conn') B) /\
  prefix_sum_invariant (DailySheet conn') A /\
  prefix_sum_invariant (DailySheet conn') B /\
  map Id (select_credit (DailySheet conn') A)
  = filter (fun i => negb (i =? selected_id))
           (map Id (select_credit (DailySheet conn) A)) /\
  (edit_debit_credit f = Credit ->
   In selected_id (map Id (select_credit (DailySheet conn') B))).
Proof.
  intros Hpk Hsel Hfetch Hcust Hflow HbuyA Hcredit HA HB HAB Hbutton conn'.
  subst conn'.
  assert (Hpk1 := execute_update_primary_key conn current_data f selected_id
                    Hpk).
  set (conn1 := execute_update conn current_data f selected_id) in *.
  assert (Hpk2 : primary_key (DailySheet (recalculate_debts conn1 A))).
  { rewrite recalculate_debts_table.
    now apply recalculate_table_primary_key. }
  assert (Hpk3 : primary_key
                   (DailySheet (recalculate_debts (recalculate_debts conn1 A)
                                  B))).
  { rewrite recalculate_debts_table.
    now apply recalculate_table_primary_key. }
  split; [|split; [|split; [|split; [|split; [|split]]]]].
  - rewrite <- HA in HbuyA.
    rewrite (edit_transaction_renders conn selected_id f current_data)
      by assumption.
    rewrite Hbutton, HA, HB. cbn zeta.
    replace (B =? A)%string with false
      by (symmetry; apply String.eqb_neq; congruence).
    reflexivity.
  - now apply select_credit_sequence.
  - now apply select_credit_sequence.
  - rewrite recalculate_debts_table.
    apply prefix_sum_invariant_other; [assumption|congruence|].
    rewrite recalculate_debts_table.
    now apply recalculate_table_invariant.
  - rewrite recalculate_debts_table.
    now apply recalculate_table_invariant.
  - rewrite recalculate_debts_table, recalculate_table_Ids.
    rewrite recalculate_debts_table, recalculate_table_Ids.
    unfold conn1, execute_update. cbn [DailySheet set_DailySheet].
    rewrite select_credit_update_other by (rewrite HB; exact HAB).
    apply other_than_Ids.
  - intros Hdc.
    rewrite recalculate_debts_table, recalculate_table_Ids.
    rewrite recalculate_debts_table, recalculate_table_Ids.
    destruct (fetchone_by_Id_Some _ _ _ Hfetch) as [Hin Hid].
    apply in_map_iff.
    exists (mkRow selected_id (edit_date f) (edit_name f) (edit_flower_name f)
                  (edit_qty f) (edit_rate f) (edit_qty f * edit_rate f)
                  Credit (edit_new_debt conn current_data f) B).
    split; [reflexivity|].
    apply select_credit_In. split.
    + unfold conn1, execute_update. cbn [DailySheet set_DailySheet].
      unfold update_DailySheet. apply in_map_iff.
      exists current_data. split; [|assumption].
      rewrite Hid, Z.eqb_refl, Hdc, HB. reflexivity.
    + apply credit_of_true. now split.
Qed.

(** ** Deleting a Credit row *)

(** C3. Pressing Delete on a Credit transaction of a buyer runs the DELETE
    and then [recalculate_debts] for that buyer. The buyer's sequence then
    is the buyer's Credit rows in strictly ascending [Id]: the remaining
    Credit rows in their old order. Their [Debt]s are the running totals,
    added in binary64 from left to right, of the remaining amounts: the
    same [Debt] sequence that a recalculation produces on any ledger in
    which the buyer's Credit rows carry just these amounts, the deleted
    row never having been inserted. *)
Theorem edit_transaction_delete_rebalances
    (conn : Db) (selected_id : Z) (f : EditForm) (current_data : Row) :
  primary_key (DailySheet conn) ->
  selected_id <> 0 ->
  fetchone_by_Id (DailySheet conn) selected_id = Some current_data ->
  In (Name current_data) (customers conn) ->
  In (FlowerName current_data) (flowers conn) ->
  In (BuyerName current_data) (buyers conn) ->
  DebitCredit current_data = Credit ->
  edit_button f = PressDelete ->
  let b := BuyerName current_data in
  let conn' := recalculate_debts (execute_delete conn selected_id) b in
  edit_transaction conn selected_id f = Some (conn', []) /\
  credit_sequence (DailySheet conn') b (select_credit (DailySheet conn') b) /\
  exists l1 l2,
    select_credit (DailySheet conn) b = l1 ++ current_data :: l2 /\
    map Id (select_credit (DailySheet conn') b) = map Id (l1 ++ l2) /\
    map Amount (select_credit (DailySheet conn') b) = map Amount (l1 ++ l2) /\
    map Debt (select_credit (DailySheet conn') b)
    = prefix_sums (map Amount (l1 ++ l2)) /\
    forall never_inserted : Db,
      primary_key (DailySheet never_inserted) ->
      map Amount (select_credit (DailySheet never_inserted) b)
      = map Amount (l1 ++ l2) ->
      map Debt (select_credit
                  (DailySheet (recalculate_debts never_inserted b)) b)
      = map Debt (select_credit (DailySheet conn') b).
Proof.
  intros Hpk Hsel Hfetch Hcust Hflow Hbuy Hcredit Hbutton b conn'.
  split; [|split].
  - rewrite (edit_transaction_renders conn selected_id f current_data)
      by assumption.
    now rewrite Hbutton.
  - apply select_credit_sequence. subst conn'.
    rewrite recalculate_debts_table. apply recalculate_table_primary_key.
    now apply execute_delete_primary_key.
  - destruct (fetchone_by_Id_Some _ _ _ Hfetch) as [Hin Hid].
    assert (Hcur : In current_data (select_credit (DailySheet conn) b)).
    { apply select_credit_In. split; [assumption|].
      apply credit_of_true. now split. }
    destruct (primary_key_split _ _
                (primary_key_select_credit _ b Hpk) Hcur)
      as (l1 & l2 & Hsplit & Hrest).
    rewrite Hid in Hrest.
    assert (Hdel : select_credit (DailySheet (execute_delete conn selected_id))
                     b = l1 ++ l2).
    { simpl. now rewrite select_credit_delete. }
    assert (Hpk1 := execute_delete_primary_key conn selected_id Hpk).
    exists l1, l2. subst conn'.
    rewrite recalculate_debts_table.
    rewrite recalculate_table_Ids, recalculate_table_Amounts,
      recalculate_table_Debts, Hdel by assumption.
    repeat split; try assumption.
    intros never_inserted Hpk0 Hamounts.
    rewrite recalculate_debts_table, recalculate_table_Debts by assumption.
    now rewrite Hamounts.
Qed.

(** ** The price lookups *)

Lemma text_le_iff a b :
  Desktop.text_le a b = true <-> a = b \/ String_as_OT.lt a b.
Proof.
  unfold Desktop.text_le.
  destruct (String_as_OT.compare_spec a b) as [E|L|G].
  - intuition.
  - intuition.
  - split; [discriminate|]. intros [E|L].
    + subst. exfalso. exact (StrictOrder_Irreflexive _ G).
    + exfalso.
      exact (StrictOrder_Irreflexive _ (StrictOrder_Transitive _ _ _ L G)).
Qed.

Lemma text_le_refl a : Desktop.text_le a a = true.
Proof. apply text_le_iff. now left. Qed.

Lemma text_le_trans a b c :
  Desktop.text_le a b = true -> Desktop.text_le b c = true ->
  Desktop.text_le a c = true.
Proof.
  rewrite !text_le_iff. intros [->|H1] [->|H2]; auto.
  right. exact (StrictOrder_Transitive _ _ _ H1 H2).
Qed.

Lemma text_lt_le a b :
  Desktop.text_lt a b = true -> Desktop.text_le a b = true.
Proof.
  unfold Desktop.text_lt, Desktop.text_le.
  now destruct (String_as_OT.compare a b).
Qed.

Lemma text_nlt_le a b :
  Desktop.text_lt a b = false -> Desktop.text_le b a = true.
Proof.
  unfold Desktop.text_lt. intros H. apply text_le_iff.
  destruct (String_as_OT.compare_spec a b) as [E|L|G];
    [now left|discriminate|now right].
Qed.

Lemma latest_from_In rows : forall best,
  In (Desktop.latest_from best rows) (best :: rows).
Proof.
  induction rows as [|r rows IH]; intros best; simpl; [now left|].
  destruct (IH (if Desktop.text_lt (Desktop.price_date best)
                                   (Desktop.price_date r)
                then r else best)) as [H|H]; [|now right; right].
  rewrite <- H.
  destruct (Desktop.text_lt _ _); [right; now left|now left].
Qed.

Lemma latest_from_max rows : forall best r,
  In r (best :: rows) ->
  Desktop.text_le (Desktop.price_date r)
                  (Desktop.price_date (Desktop.latest_from best rows)) = true.
Proof.
  induction rows as [|x rows IH]; intros best r Hr.
  - destruct Hr as [->|[]]. apply text_le_refl.
  - cbn [Desktop.latest_from].
    set (best' := if Desktop.text_lt (Desktop.price_date best)
                                     (Desktop.price_date x)
                  then x else best).
    assert (Hb : Desktop.text_le (Desktop.price_date best)
                                 (Desktop.price_date best') = true).
    { unfold best'. destruct (Desktop.text_lt _ _) eqn:E;
        [now apply text_lt_le|apply text_le_refl]. }
    assert (Hx : Desktop.text_le (Desktop.price_date x)
                                 (Desktop.price_date best') = true).
    { unfold best'. destruct (Desktop.text_lt _ _) eqn:E;
        [apply text_le_refl|now apply text_nlt_le]. }
    destruct Hr as [->|[->|Hr]].
    + eapply text_le_trans; [exact Hb|]. apply IH. now left.
    + eapply text_le_trans; [exact Hx|]. apply IH. now left.
    + apply IH. now right.
Qed.

Lemma filter_nil_iff {A} (p : A -> bool) l :
  filter p l = [] <-> forall x, In x l -> p x = false.
Proof.
  induction l as [|a l IH]; simpl; [intuition|].
  destruct (p a) eqn:E; split.
  - discriminate.
  - intros H. specialize (H a (or_introl eq_refl)). congruence.
  - intros H x [<-|Hx]; [assumption|]. now apply IH.
  - intros H. apply IH. intros x Hx. apply H. now right.
Qed.

Lemma fetch_today_price_None flower_prices fid ymd :
  Desktop.fetch_today_price flower_prices fid ymd = None <->
  forall r, In r flower_prices -> Desktop.on_or_before fid ymd r = false.
Proof.
  unfold Desktop.fetch_today_price. rewrite <- filter_nil_iff.
  destruct (filter (Desktop.on_or_before fid ymd) flower_prices); simpl;
    split; congruence.
Qed.

Lemma fetch_today_price_Some flower_prices fid ymd p :
  Desktop.fetch_today_price flower_prices fid ymd = Some p ->
  exists r,
    In r flower_prices /\ Desktop.on_or_before fid ymd r = true /\
    Desktop.price r = p /\
    forall r', In r' flower_prices ->
               Desktop.on_or_before fid ymd r' = true ->
               Desktop.text_le (Desktop.price_date r') (Desktop.price_date r)
               = true.
Proof.
  unfold Desktop.fetch_today_price.
  destruct (filter (Desktop.on_or_before fid ymd) flower_prices)
    as [|x rows] eqn:E; simpl; [discriminate|].
  intros H. injection H as <-.
  exists (Desktop.latest_from x rows).
  pose proof (latest_from_In rows x) as Hin. rewrite <- E in Hin.
  apply filter_In in Hin. destruct Hin as [Hin Hok].
  repeat split; try assumption.
  intros r' Hr' Hok'. apply latest_from_max. rewrite <- E.
  apply filter_In. now split.
Qed.




(** ** Histories of insertions *)

Lemma credit_of_inserted_row conn b f :
  credit_of b (inserted_row conn f)
  = is_Credit (add_debit_credit f) && (add_buyer_name f =? b)%string.
Proof. reflexivity. Qed.

Lemma add_transaction_key_amounts conn f b :
  map key_amount (select_credit (DailySheet (fst (add_transaction conn f))) b)
  = map key_amount (select_credit (DailySheet conn) b)
    ++ (if credited b f then [(next_Id conn, add_amount f)] else []).
Proof.
  unfold credited. destruct (accepted f) eqn:Hacc; simpl.
  - rewrite add_transaction_accepted by assumption. simpl.
    rewrite recalculate_debts_table, select_credit_recalculate. simpl.
    rewrite map_map.
    erewrite map_ext.
    2:{ intros r. unfold key_amount.
        rewrite (keeps_columns_Id _ r (iterrows_row_keeps _ _)).
        rewrite (keeps_columns_Amount _ r (iterrows_row_keeps _ _)).
        reflexivity. }
    fold key_amount.
    rewrite select_credit_last
      by (intros r Hr; now apply (next_Id_fresh conn)).
    rewrite map_app, (credit_of_inserted_row conn).
    now destruct (is_Credit (add_debit_credit f)
                  && (add_buyer_name f =? b)%string).
  - rewrite add_transaction_not_accepted by assumption.
    now rewrite app_nil_r.
Qed.

Lemma add_transaction_next_Id conn f :
  next_Id conn <= next_Id (fst (add_transaction conn f)) /\
  (accepted f = true -> next_Id conn < next_Id (fst (add_transaction conn f))).
Proof.
  assert (H : forall c b, DailySheet_seq c < next_Id (recalculate_debts c b)).
  { intros c b. rewrite recalculate_debts_eq. unfold next_Id. simpl. lia. }
  destruct (accepted f) eqn:Hacc.
  - rewrite add_transaction_accepted by assumption.
    cbn [fst]. match goal with |- context [recalculate_debts ?c ?b] =>
      specialize (H c b) end.
    cbn [DailySheet_seq] in H.
    split; [|intros _]; lia.
  - rewrite add_transaction_not_accepted by assumption.
    split; [lia|discriminate].
Qed.

Lemma add_transaction_primary_key conn f :
  primary_key (DailySheet conn) ->
  primary_key (DailySheet (fst (add_transaction conn f))).
Proof.
  intros Hpk. destruct (accepted f) eqn:Hacc.
  - rewrite add_transaction_accepted by assumption. simpl.
    rewrite recalculate_debts_table. apply recalculate_table_primary_key.
    simpl. apply primary_key_last; [assumption|].
    intros r Hr. now apply (next_Id_fresh conn).
  - now rewrite add_transaction_not_accepted.
Qed.

Lemma replay_app conn fs fs' :
  replay conn (fs ++ fs') = replay (replay conn fs) fs'.
Proof. apply fold_left_app. Qed.

Lemma replay_primary_key fs : forall conn,
  primary_key (DailySheet conn) -> primary_key (DailySheet (replay conn fs)).
Proof.
  induction fs as [|f fs IH]; intros conn Hpk; [assumption|].
  apply IH. now apply add_transaction_primary_key.
Qed.

Lemma replay_key_amounts b fs : forall conn,
  exists news,
    map key_amount (select_credit (DailySheet (replay conn fs)) b)
    = map key_amount (select_credit (DailySheet conn) b) ++ news /\
    map snd news = credited_amounts b fs /\
    Forall (fun ka => next_Id conn <= fst ka) news.
Proof.
  induction fs as [|f fs IH]; intros conn.
  - exists []. simpl. now rewrite app_nil_r.
  - destruct (IH (fst (add_transaction conn f))) as (news & E & Hs & Hge).
    destruct (add_transaction_next_Id conn f) as [Hle _].
    exists ((if credited b f then [(next_Id conn, add_amount f)] else [])
            ++ news).
    change (replay conn (f :: fs))
      with (replay (fst (add_transaction conn f)) fs).
    rewrite E, add_transaction_key_amounts, <- app_assoc.
    split; [reflexivity|]. split.
    + rewrite map_app, Hs. unfold credited_amounts. simpl.
      now destruct (credited b f).
    + apply Forall_app. split.
      * destruct (credited b f); constructor; simpl; [lia|constructor].
      * eapply Forall_impl; [|exact Hge]. simpl. intros ka Hka. lia.
Qed.

Lemma key_amount_filter id l :
  map key_amount (filter (other_than id) l)
  = filter (fun ka => negb (fst ka =? id)) (map key_amount l).
Proof.
  induction l as [|x l IH]; simpl; [reflexivity|].
  unfold other_than at 1. destruct (Id x =? id); simpl; now rewrite IH.
Qed.

Lemma map_snd_key_amount l : map snd (map key_amount l) = map Amount l.
Proof. rewrite map_map. reflexivity. Qed.

Lemma filter_all {A} (p : A -> bool) l :
  Forall (fun x => p x = true) l -> filter p l = l.
Proof.
  intros H. apply forallb_filter_id, forallb_forall.
  now apply Forall_forall.
Qed.

(** X17. Deleting the row that a submission inserted, and recalculating
    its buyer, gives the buyer's rows the [Debt] sequence they have, once
    recalculated, in the ledger obtained from the same history without
    that submission. *)
Corollary replay_delete_never_inserted
    (conn0 : Db) (fs1 fs2 : list AddForm) (f0 : AddForm) :
  primary_key (DailySheet conn0) ->
  accepted f0 = true ->
  add_debit_credit f0 = Credit ->
  let b := add_buyer_name f0 in
  let selected_id := next_Id (replay conn0 fs1) in
  map Debt (select_credit
              (DailySheet
                 (recalculate_debts
                    (execute_delete (replay conn0 (fs1 ++ f0 :: fs2))
                                    selected_id) b)) b)
  = map Debt (select_credit
                (DailySheet
                   (recalculate_debts (replay conn0 (fs1 ++ fs2)) b)) b).
Proof.
  intros Hpk Hacc Hcredit b selected_id.
  set (ca := replay conn0 fs1) in *.
  assert (Hpka : primary_key (DailySheet ca)) by now apply replay_primary_key.
  assert (Hpk1 : primary_key
                   (DailySheet (execute_delete
                                  (replay conn0 (fs1 ++ f0 :: fs2))
                                  selected_id))).
  { apply execute_delete_primary_key. rewrite replay_app. fold ca.
    apply (replay_primary_key (f0 :: fs2)), Hpka. }
  assert (Hpk2 : primary_key (DailySheet (replay conn0 (fs1 ++ fs2)))).
  { rewrite replay_app. now apply replay_primary_key. }
  rewrite !recalculate_debts_table.
  rewrite !recalculate_table_Debts by assumption.
  f_equal. simpl DailySheet at 1.
  rewrite select_credit_delete, <- !map_snd_key_amount, key_amount_filter.
  rewrite !replay_app. fold ca.
  change (replay ca (f0 :: fs2))
    with (replay (fst (add_transaction ca f0)) fs2).
  destruct (replay_key_amounts b fs2 (fst (add_transaction ca f0)))
    as (news & E & Hs & Hge).
  destruct (replay_key_amounts b fs2 ca) as (news' & E' & Hs' & _).
  rewrite E, E', add_transaction_key_amounts.
  assert (Hc : credited b f0 = true).
  { unfold credited. rewrite Hacc, Hcredit. simpl.
    apply String.eqb_refl. }
  rewrite Hc, !filter_app. simpl. fold selected_id.
  rewrite Z.eqb_refl. simpl. rewrite app_nil_r, !map_app.
  rewrite Hs'. f_equal; [f_equal|].
  - apply filter_all, Forall_forall. intros ka Hka.
    apply in_map_iff in Hka. destruct Hka as (r & <- & Hr).
    apply select_credit_In in Hr. destruct Hr as [Hr _].
    apply (next_Id_fresh ca) in Hr. fold selected_id in Hr. simpl.
    apply negb_true_iff, Z.eqb_neq. lia.
  - rewrite <- Hs. f_equal. apply filter_all.
    destruct (add_transaction_next_Id ca f0) as [_ Hlt].
    specialize (Hlt Hacc). fold selected_id in Hlt.
    eapply Forall_impl; [|exact Hge]. simpl. intros ka Hka.
    apply negb_true_iff, Z.eqb_neq. lia.
Qed.

(** ** The ledger stays balanced *)

Lemma balanced_recalculate t b :
  primary_key t ->
  (forall b', b' <> b -> prefix_sum_invariant t b') ->
  balanced (recalculate_table t b).
Proof.
  intros Hpk H. split; [now apply recalculate_table_primary_key|].
  intros b'. destruct (string_dec b' b) as [->|Hne].
  - now apply recalculate_table_invariant.
  - apply prefix_sum_invariant_other; auto.
Qed.

Lemma balanced_recalculate_keep t b :
  balanced t -> balanced (recalculate_table t b).
Proof.
  intros [Hpk H]. apply balanced_recalculate; auto.
Qed.

Lemma prefix_sum_invariant_eq t t' b :
  select_credit t' b = select_credit t b ->
  prefix_sum_invariant t b -> prefix_sum_invariant t' b.
Proof. unfold prefix_sum_invariant. now intros ->. Qed.

Lemma select_credit_without t id cur b :
  primary_key t -> In cur t -> Id cur = id -> BuyerName cur <> b ->
  filter (other_than id) (select_credit t b) = select_credit t b.
Proof.
  intros Hpk Hcur Hid Hb. apply filter_all, Forall_forall.
  intros r Hr. apply select_credit_In in Hr. destruct Hr as [Hr Hc].
  unfold other_than. apply negb_true_iff, Z.eqb_neq. intros E.
  apply credit_of_true in Hc. destruct Hc as [_ Hc].
  rewrite <- Hid in E.
  rewrite (primary_key_inj t r cur Hpk Hr Hcur E) in Hc. contradiction.
Qed.

Lemma balanced_add_transaction conn f :
  balanced (DailySheet conn) ->
  balanced (DailySheet (fst (add_transaction conn f))).
Proof.
  intros [Hpk H]. destruct (accepted f) eqn:Hacc.
  - rewrite add_transaction_accepted by assumption. cbn [fst].
    rewrite recalculate_debts_table. cbn [DailySheet].
    assert (Hfresh : forall r, In r (DailySheet conn) ->
                               Id r < Id (inserted_row conn f))
      by (intros r Hr; now apply (next_Id_fresh conn)).
    apply balanced_recalculate; [now apply primary_key_last|].
    intros b' Hb'. apply (prefix_sum_invariant_eq (DailySheet conn));
      [|apply H].
    rewrite select_credit_last by assumption.
    replace (credit_of b' (inserted_row conn f)) with false;
      [apply app_nil_r|].
    symmetry. apply credit_of_false. right. simpl. congruence.
  - rewrite add_transaction_not_accepted by assumption. now split.
Qed.

Lemma balanced_edit_transaction conn selected_id f conn' msgs :
  edit_transaction conn selected_id f = Some (conn', msgs) ->
  balanced (DailySheet conn) -> balanced (DailySheet conn').
Proof.
  unfold edit_transaction. intros He [Hpk H].
  destruct (DailySheet conn) as [|r0 t0] eqn:Et;
    [injection He as <- _; rewrite Et; now split|].
  rewrite <- Et in *. clear Et r0 t0.
  destruct (selected_id =? 0); [injection He as <- _; now split|].
  destruct (fetchone_by_Id (DailySheet conn) selected_id) as [cur|] eqn:Hf;
    [|discriminate].
  destruct (fetchone_by_Id_Some _ _ _ Hf) as [Hcur Hid].
  destruct (index (Name cur) (customers conn)); [|discriminate].
  destruct (index (FlowerName cur) (flowers conn)); [|discriminate].
  destruct (index (BuyerName cur) (buyers conn)); [|discriminate].
  destruct (edit_button f); injection He as <- _.
  - (* Update *)
    assert (Hpk1 := execute_update_primary_key conn cur f selected_id Hpk).
    assert (H1 : balanced (DailySheet (recalculate_debts
                   (execute_update conn cur f selected_id) (BuyerName cur))) \/
                 (edit_buyer_name f <> BuyerName cur /\
                  primary_key (DailySheet (recalculate_debts
                   (execute_update conn cur f selected_id) (BuyerName cur))) /\
                  forall b', b' <> edit_buyer_name f ->
                    prefix_sum_invariant (DailySheet (recalculate_debts
                      (execute_update conn cur f selected_id) (BuyerName cur)))
                      b')).
    { rewrite recalculate_debts_table.
      destruct (string_dec (edit_buyer_name f) (BuyerName cur)) as [E|E].
      - left. apply balanced_recalculate; [assumption|].
        intros b' Hb'. apply (prefix_sum_invariant_eq (DailySheet conn));
          [|apply H].
        unfold execute_update. cbn [DailySheet set_DailySheet].
        rewrite select_credit_update_other by congruence.
        apply (select_credit_without _ _ cur); auto.
      - right. split; [assumption|].
        split; [now apply recalculate_table_primary_key|].
        intros b' Hb'.
        destruct (string_dec b' (BuyerName cur)) as [->|Hne].
        + now apply recalculate_table_invariant.
        + apply prefix_sum_invariant_other; auto.
          apply (prefix_sum_invariant_eq (DailySheet conn)); [|apply H].
          unfold execute_update. cbn [DailySheet set_DailySheet].
          rewrite select_credit_update_other by assumption.
          apply (select_credit_without _ _ cur); auto. }
    destruct H1 as [H1|(E & Hpk2 & H2)].
    + destruct (negb (edit_buyer_name f =? BuyerName cur)%string);
        [|assumption].
      rewrite recalculate_debts_table. now apply balanced_recalculate_keep.
    + replace (edit_buyer_name f =? BuyerName cur)%string with false
        by (symmetry; now apply String.eqb_neq).
      cbn [negb]. rewrite recalculate_debts_table.
      now apply balanced_recalculate.
  - (* Delete *)
    rewrite recalculate_debts_table.
    apply balanced_recalculate;
      [now apply execute_delete_primary_key|].
    intros b' Hb'. apply (prefix_sum_invariant_eq (DailySheet conn));
      [|apply H].
    unfold execute_delete. cbn [DailySheet set_DailySheet].
    rewrite select_credit_delete.
    apply (select_credit_without _ _ cur); auto.
  - now split.
Qed.

Lemma balanced_run_action conn a :
  balanced (DailySheet conn) -> balanced (DailySheet (run_action conn a)).
Proof.
  intros H. destruct a as [f|selected_id f|b]; simpl.
  - now apply balanced_add_transaction.
  - destruct (edit_transaction conn selected_id f) as [[conn' msgs]|] eqn:E;
      [|assumption].
    eapply balanced_edit_transaction; eauto.
  - rewrite recalculate_debts_table. now apply balanced_recalculate_keep.
Qed.

Lemma balanced_run_actions conn l :
  balanced (DailySheet conn) -> balanced (DailySheet (run_actions conn l)).
Proof.
  revert conn. induction l as [|a l IH]; intros conn H; [assumption|].
  unfold run_actions. simpl. apply IH. now apply balanced_run_action.
Qed.

(** X1. Every action of the Daily Sheet page keeps the ledger in order:
    starting from a ledger with distinct [Id]s in which every buyer's Credit
    rows carry their running totals, any sequence of add submissions,
    updates, deletes and recalculations ends in such a ledger. There every
    buyer's sequence is the buyer's Credit rows in strictly ascending [Id],
    and the [Debt] of its k-th row is the binary64 total of the first k
    amounts, added from left to right. *)
Theorem run_actions_balanced (conn : Db) (l : list Action) :
  balanced (DailySheet conn) ->
  let t := DailySheet (run_actions conn l) in
  balanced t /\
  forall b : string,
    credit_sequence t b (select_credit t b) /\
    forall (k : nat) (row : Row),
      nth_error (select_credit t b) k = Some row ->
      Debt row = running_total (firstn (S k) (map Amount (select_credit t b))).
Proof.
  intros H t.
  assert (Hb : balanced t) by now apply balanced_run_actions.
  split; [exact Hb|]. destruct Hb as [Hpk Hinv]. intros b. split.
  - now apply select_credit_sequence.
  - intros k row Hk. apply (prefix_sum_invariant_nth t b k row (Hinv b) Hk).
Qed.

Lemma balanced_empty_ledger cs fl bs :
  balanced (DailySheet (empty_ledger cs fl bs)).
Proof.
  split; [constructor|]. intros b. reflexivity.
Defined.

(** ** When the edit block raises *)

Lemma index_None x l : ~ In x l -> index x l = None.
Proof.
  induction l as [|y l IH]; simpl; [reflexivity|].
  intros H. destruct (y =? x)%string eqn:E.
  - apply String.eqb_eq in E. tauto.
  - rewrite IH by tauto. reflexivity.
Qed.

Lemma edit_transaction_raises conn selected_id f current_data :
  selected_id <> 0 ->
  fetchone_by_Id (DailySheet conn) selected_id = Some current_data ->
  ~ In (Name current_data) (customers conn) \/
  ~ In (FlowerName current_data) (flowers conn) \/
  ~ In (BuyerName current_data) (buyers conn) ->
  edit_transaction conn selected_id f = None.
Proof.
  intros Hsel Hfetch Hmissing. unfold edit_transaction.
  destruct (fetchone_by_Id_Some _ _ _ Hfetch) as [Hin _].
  destruct (DailySheet conn) as [|r0 t0] eqn:Et; [destruct Hin|].
  rewrite <- Et in Hfetch |- *. apply Z.eqb_neq in Hsel.
  rewrite Hsel, Hfetch.
  destruct Hmissing as [H|[H|H]]; rewrite (index_None _ _ H).
  - reflexivity.
  - now destruct (index (Name current_data) (customers conn)).
  - now destruct (index (Name current_data) (customers conn)),
      (index (FlowerName current_data) (flowers conn)).
Qed.

(** X3. A stored transaction whose customer, flower or buyer is no longer
    offered by the master lists cannot be edited: the edit block raises
    while building its form, whichever button is pressed, and so neither
    updates nor deletes the row. *)
Theorem edit_transaction_dangling
    (conn : Db) (selected_id : Z) (f : EditForm) (current_data : Row) :
  selected_id <> 0 ->
  fetchone_by_Id (DailySheet conn) selected_id = Some current_data ->
  ~ In (Name current_data) (customers conn) \/
  ~ In (FlowerName current_data) (flowers conn) \/
  ~ In (BuyerName current_data) (buyers conn) ->
  edit_transaction conn selected_id f = None /\
  run_action conn (Edit selected_id f) = conn.
Proof.
  intros Hsel Hfetch Hmissing.
  pose proof (edit_transaction_raises conn selected_id f current_data
                Hsel Hfetch Hmissing) as E.
  split; [exact E|]. simpl. now rewrite E.
Qed.

Lemma max_Id_nonneg t : 0 <= max_Id t.
Proof. induction t as [|r t IH]; simpl; lia. Qed.

Lemma next_Id_positive conn : 0 < next_Id conn.
Proof.
  unfold next_Id. pose proof (max_Id_nonneg (DailySheet conn)). lia.
Qed.

Lemma find_last_fresh {A} (p : A -> bool) l x :
  (forall y, In y l -> p y = false) -> p x = true ->
  find p (l ++ [x]) = Some x.
Proof.
  intros Hl Hx. induction l as [|y l IH]; simpl.
  - now rewrite Hx.
  - rewrite (Hl y (or_introl eq_refl)). apply IH.
    intros z Hz. apply Hl. now right.
Qed.

Lemma fetchone_inserted_Debit conn f :
  accepted f = true -> add_debit_credit f = Debit ->
  fetchone_by_Id (DailySheet (fst (add_transaction conn f))) (next_Id conn)
  = Some (inserted_row conn f).
Proof.
  intros Hacc Hd. rewrite add_transaction_accepted by assumption. cbn [fst].
  rewrite recalculate_debts_table, recalculate_table_map. cbn [DailySheet].
  rewrite map_app. cbn [map].
  rewrite (iterrows_row_Debit _ _ (inserted_row conn f)) by exact Hd.
  unfold fetchone_by_Id. apply find_last_fresh.
  - intros y Hy. apply in_map_iff in Hy. destruct Hy as (r & <- & Hr).
    rewrite (keeps_columns_Id _ r (iterrows_row_keeps _ _)).
    apply (next_Id_fresh conn) in Hr. apply Z.eqb_neq. lia.
  - apply Z.eqb_refl.
Qed.

Lemma buyers_add_transaction conn f :
  buyers (fst (add_transaction conn f)) = buyers conn.
Proof.
  destruct (accepted f) eqn:Hacc.
  - rewrite add_transaction_accepted by assumption. cbn [fst].
    now rewrite recalculate_debts_eq.
  - now rewrite add_transaction_not_accepted.
Qed.

(** X4. A Debit transaction added with the buyer left empty can never be
    edited or deleted through the page as long as the buyer list has no
    empty name: selecting it makes the edit block raise on
    [buyers.index('')]. *)
Theorem edit_transaction_Debit_without_buyer
    (conn : Db) (f : AddForm) (e : EditForm) :
  accepted f = true ->
  add_debit_credit f = Debit ->
  add_buyer_name f = "" ->
  ~ In "" (buyers conn) ->
  edit_transaction (fst (add_transaction conn f)) (next_Id conn) e = None.
Proof.
  intros Hacc Hd Hb Hnone.
  refine (edit_transaction_raises _ _ e (inserted_row conn f)
            _ (fetchone_inserted_Debit conn f Hacc Hd) _).
  - pose proof (next_Id_positive conn). lia.
  - right. right. rewrite buyers_add_transaction. simpl. now rewrite Hb.
Qed.

(** ** Keys are never given twice *)

Lemma DailySheet_seq_recalculate conn b :
  DailySheet_seq (recalculate_debts conn b) = DailySheet_seq conn.
Proof. now rewrite recalculate_debts_eq. Qed.

Lemma DailySheet_seq_add conn f :
  DailySheet_seq conn <= DailySheet_seq (fst (add_transaction conn f)) /\
  (accepted f = true ->
   DailySheet_seq (fst (add_transaction conn f)) = next_Id conn).
Proof.
  destruct (accepted f) eqn:Hacc.
  - rewrite add_transaction_accepted by assumption. cbn [fst].
    rewrite DailySheet_seq_recalculate. cbn [DailySheet_seq].
    split; [unfold next_Id; lia|reflexivity].
  - rewrite add_transaction_not_accepted by assumption.
    split; [lia|discriminate].
Qed.

Lemma DailySheet_seq_edit conn selected_id f conn' msgs :
  edit_transaction conn selected_id f = Some (conn', msgs) ->
  DailySheet_seq conn' = DailySheet_seq conn.
Proof.
  unfold edit_transaction. intros He.
  destruct (DailySheet conn) as [|r0 t0]; [now injection He as <- _|].
  destruct (selected_id =? 0); [now injection He as <- _|].
  destruct (fetchone_by_Id _ selected_id) as [cur|]; [|discriminate].
  destruct (index (Name cur) (customers conn)); [|discriminate].
  destruct (index (FlowerName cur) (flowers conn)); [|discriminate].
  destruct (index (BuyerName cur) (buyers conn)); [|discriminate].
  destruct (edit_button f); injection He as <- _.
  - destruct (negb (edit_buyer_name f =? BuyerName cur)%string);
      now rewrite ?DailySheet_seq_recalculate.
  - now rewrite DailySheet_seq_recalculate.
  - reflexivity.
Qed.

Lemma DailySheet_seq_run_action conn a :
  DailySheet_seq conn <= DailySheet_seq (run_action conn a).
Proof.
  destruct a as [f|selected_id f|b]; simpl.
  - apply DailySheet_seq_add.
  - destruct (edit_transaction conn selected_id f) as [[conn' msgs]|] eqn:E;
      [|lia].
    rewrite (DailySheet_seq_edit _ _ _ _ _ E). lia.
  - rewrite DailySheet_seq_recalculate. lia.
Qed.

Lemma DailySheet_seq_run_actions l : forall conn,
  DailySheet_seq conn <= DailySheet_seq (run_actions conn l).
Proof.
  induction l as [|a l IH]; intros conn; [apply Z.le_refl|].
  unfold run_actions. simpl.
  etransitivity; [apply (DailySheet_seq_run_action conn a)|apply IH].
Qed.

(** X5. The [Id] given to an inserted transaction is never given again:
    whatever adds, updates, deletes and recalculations follow, including
    the deletion of that very transaction, the next insertion receives a
    strictly larger [Id]. *)
Theorem inserted_Id_never_reused (conn : Db) (f : AddForm) (l : list Action) :
  accepted f = true ->
  Id (inserted_row conn f)
  < next_Id (run_actions (fst (add_transaction conn f)) l).
Proof.
  intros Hacc.
  pose proof (DailySheet_seq_run_actions l (fst (add_transaction conn f))) as H.
  rewrite (proj2 (DailySheet_seq_add conn f) Hacc) in H.
  change (Id (inserted_row conn f)) with (next_Id conn).
  unfold next_Id at 2. lia.
Qed.

(** ** Reports: the groups *)

Lemma filter_filter_and {A} (p q : A -> bool) l :
  filter p (filter q l) = filter (fun x => p x && q x) l.
Proof.
  induction l as [|x l IH]; simpl; [reflexivity|].
  destruct (q x); simpl; rewrite ?andb_true_r, ?andb_false_r;
    [destruct (p x)|]; now rewrite IH.
Qed.

Section Groups.

Context {K : Type} (eq_dec : forall x y : K, {x = y} + {x <> y}).
Variables (key : Row -> K) (val : Row -> float).

Lemma group_sum_keys rows :
  NoDup (map fst (group_sum eq_dec key val rows)) /\
  forall k, In k (map fst (group_sum eq_dec key val rows))
            <-> exists r, In r rows /\ key r = k.
Proof.
  unfold group_sum. rewrite map_map. cbn [fst]. rewrite map_id.
  split; [apply NoDup_nodup|].
  intros k. rewrite nodup_In, in_map_iff. firstorder.
Qed.

Lemma group_sum_In rows k x :
  In (k, x) (group_sum eq_dec key val rows) ->
  x = SUM (map val (filter (fun r => if eq_dec (key r) k then true else false)
                           rows)).
Proof.
  unfold group_sum. intros H. apply in_map_iff in H.
  destruct H as (k' & E & _). now injection E as -> <-.
Qed.

End Groups.

(** X6. The grouped reports list each key exactly once: "Flower Sales
    Summary" has one line for every flower with a transaction on the date
    and for no other, "Customer Balance" one line for every date and
    customer with a transaction and for no other. The [TotalAmount] beside
    a flower is SQLite's [SUM] over the amounts of that flower's rows of
    the date, taken in table order, both aggregate columns of the summary
    have the same keys, and "Daily Sales" reports no transactions exactly
    when the summary of the date is empty. *)
Theorem reports_list_each_key_once (t : list Row) (date_str : string) :
  NoDup (map fst (flower_sales_TotalAmount t date_str)) /\
  NoDup (map fst (customer_balance t)) /\
  (forall fl, In fl (map fst (flower_sales_TotalAmount t date_str)) <->
              exists r, In r t /\ Date r = date_str /\ FlowerName r = fl) /\
  (forall d n, In (d, n) (map fst (customer_balance t)) <->
               exists r, In r t /\ Date r = d /\ Name r = n) /\
  (forall fl x,
     In (fl, x) (flower_sales_TotalAmount t date_str) ->
     x = SUM (map Amount
                (filter (fun r => (FlowerName r =? fl)%string
                                  && on_date date_str r) t))) /\
  map fst (flower_sales_TotalQty t date_str)
  = map fst (flower_sales_TotalAmount t date_str) /\
  (daily_sales t date_str = None <->
   flower_sales_TotalAmount t date_str = []).
Proof.
  unfold flower_sales_TotalAmount, flower_sales_TotalQty, customer_balance.
  split; [apply group_sum_keys|]. split; [apply group_sum_keys|].
  split; [|split; [|split; [|split]]].
  - intros fl.
    rewrite (proj2 (group_sum_keys string_dec FlowerName Amount _)).
    split.
    + intros (r & Hr & <-). apply filter_In in Hr. destruct Hr as [Hr Hd].
      exists r. unfold on_date in Hd. apply String.eqb_eq in Hd. auto.
    + intros (r & Hr & Hd & <-). exists r. split; [|reflexivity].
      apply filter_In. split; [assumption|].
      unfold on_date. now apply String.eqb_eq.
  - intros d n.
    rewrite (proj2 (group_sum_keys date_name_dec
                      (fun r => (Date r, Name r)) Amount _)).
    split.
    + intros (r & Hr & E). injection E as <- <-. now exists r.
    + intros (r & Hr & <- & <-). now exists r.
  - intros fl x H. apply group_sum_In in H. rewrite H.
    rewrite filter_filter_and. do 2 f_equal. apply filter_ext. intros r.
    destruct (string_dec (FlowerName r) fl) as [E|E].
    + apply String.eqb_eq in E. now rewrite E.
    + apply String.eqb_neq in E. now rewrite E.
  - unfold group_sum. now rewrite !map_map.
  - unfold daily_sales, group_sum.
    destruct (filter (on_date date_str) t) as [|x rows]; [tauto|].
    split; [discriminate|]. intros E. exfalso.
    apply map_eq_nil in E.
    assert (Hin : In (FlowerName x)
                     (nodup string_dec (map FlowerName (x :: rows))))
      by (apply nodup_In; now left).
    rewrite E in Hin. destruct Hin.
Qed.

(** ** Reports and the ledger operations *)

Lemma filter_map_keeps {A} (p : A -> bool) (g : A -> A) l :
  (forall r, p (g r) = p r) -> filter p (map g l) = map g (filter p l).
Proof.
  intros H. induction l as [|x l IH]; simpl; [reflexivity|].
  rewrite H. destruct (p x); simpl; now rewrite IH.
Qed.

Lemma group_sum_map {K} (eq_dec : forall x y : K, {x = y} + {x <> y})
    (key : Row -> K) (val : Row -> float) (g : Row -> Row) rows :
  (forall r, key (g r) = key r) -> (forall r, val (g r) = val r) ->
  group_sum eq_dec key val (map g rows) = group_sum eq_dec key val rows.
Proof.
  intros Hk Hv. unfold group_sum. rewrite map_map.
  rewrite (map_ext _ key Hk). apply map_ext. intros k. f_equal. f_equal.
  rewrite filter_map_keeps by (intros r; now rewrite Hk).
  rewrite map_map. now apply map_ext.
Qed.

Lemma on_date_keeps g d r :
  keeps_columns g -> on_date d (g r) = on_date d r.
Proof. intros H. unfold on_date. now rewrite (H r). Qed.

(** X7. [recalculate_debts] changes no figure of the reports "Daily
    Sales", "Flower Sales Summary" and "Customer Balance": they read
    amounts and quantities, never [Debt]. *)
Theorem recalculate_debts_reports (conn : Db) (buyer_name : string) :
  let t := DailySheet conn in
  let t' := DailySheet (recalculate_debts conn buyer_name) in
  (forall d, daily_sales t' d = daily_sales t d) /\
  (forall d, flower_sales_TotalQty t' d = flower_sales_TotalQty t d) /\
  (forall d, flower_sales_TotalAmount t' d = flower_sales_TotalAmount t d) /\
  customer_balance t' = customer_balance t.
Proof.
  intros t t'. subst t t'.
  rewrite recalculate_debts_table, recalculate_table_map.
  set (g := iterrows_row _ 0).
  assert (Hg : keeps_columns g) by apply iterrows_row_keeps.
  assert (HF : forall d, filter (on_date d) (map g (DailySheet conn))
                         = map g (filter (on_date d) (DailySheet conn))).
  { intros d. apply filter_map_keeps. intros r. now apply on_date_keeps. }
  repeat split.
  - intros d. unfold daily_sales. rewrite HF.
    destruct (filter (on_date d) (DailySheet conn)) as [|x l];
      [reflexivity|].
    cbn [map]. f_equal. rewrite <- !map_cons, map_map. f_equal.
    apply map_ext. intros r. now apply keeps_columns_Amount.
  - intros d. unfold flower_sales_TotalQty. rewrite HF.
    apply group_sum_map; intros r; now rewrite (Hg r).
  - intros d. unfold flower_sales_TotalAmount. rewrite HF.
    apply group_sum_map; intros r; now rewrite (Hg r).
  - unfold customer_balance.
    apply group_sum_map; intros r; now rewrite (Hg r).
Qed.

Lemma daily_sales_recalculate t b d :
  daily_sales (recalculate_table t b) d = daily_sales t d.
Proof.
  unfold daily_sales. rewrite recalculate_table_map.
  rewrite filter_map_keeps
    by (intros r; apply on_date_keeps, iterrows_row_keeps).
  destruct (filter (on_date d) t) as [|x l]; [reflexivity|].
  cbn [map]. f_equal. rewrite <- !map_cons, map_map. f_equal.
  apply map_ext. intros r. apply keeps_columns_Amount, iterrows_row_keeps.
Qed.

(** X8. A submission of the add form that passes its guards adds one
    amount, quantity times rate, whatever its direction, to the amounts
    that "Daily Sales" sums for its own date: the report then shows the
    pandas sum of the old amounts of the date followed by the new one. It
    changes the report of no other date, and a submission that does not
    pass changes no report. *)
Theorem daily_sales_add_transaction (conn : Db) (f : AddForm) (d : string) :
  let t := DailySheet conn in
  let t' := DailySheet (fst (add_transaction conn f)) in
  (accepted f = true ->
   daily_sales t' (add_date f)
   = Some (pandas_sum (map Amount (filter (on_date (add_date f)) t)
                       ++ [(add_qty f * add_rate f)%float]))) /\
  (accepted f = true -> add_date f <> d ->
   daily_sales t' d = daily_sales t d) /\
  (accepted f = false -> daily_sales t' d = daily_sales t d).
Proof.
  intros t t'. subst t t'.
  assert (H : forall d', accepted f = true ->
    daily_sales (DailySheet (fst (add_transaction conn f))) d'
    = daily_sales (DailySheet conn ++ [inserted_row conn f]) d').
  { intros d' Hacc. rewrite add_transaction_accepted by assumption.
    cbn [fst]. rewrite recalculate_debts_table.
    now rewrite daily_sales_recalculate. }
  assert (Hnew : forall d',
    filter (on_date d') [inserted_row conn f]
    = if (add_date f =? d')%string then [inserted_row conn f] else [])
    by reflexivity.
  split; [|split].
  - intros Hacc. rewrite (H _ Hacc). unfold daily_sales.
    rewrite filter_app, Hnew, String.eqb_refl.
    rewrite <- (map_app Amount _ [inserted_row conn f]).
    destruct (filter (on_date (add_date f)) (DailySheet conn));
      reflexivity.
  - intros Hacc Hd. rewrite (H _ Hacc). unfold daily_sales.
    rewrite filter_app, Hnew.
    replace (add_date f =? d)%string with false
      by (symmetry; now apply String.eqb_neq).
    now rewrite app_nil_r.
  - intros Hacc. now rewrite add_transaction_not_accepted.
Qed.

(** ** The report "Buyer Debts" *)

Lemma max_of_Some l m :
  max_of l = Some m <-> In m l /\ forall x, In x l -> x <= m.
Proof.
  revert m. induction l as [|a l IH]; intros m; simpl.
  - split; [discriminate|tauto].
  - destruct (max_of l) as [m'|] eqn:E.
    + destruct (proj1 (IH m') eq_refl) as [Hin Hmax]. split.
      * intros H. injection H as <-. split.
        -- destruct (Z.max_spec a m') as [[_ ->]|[_ ->]]; auto.
        -- intros x [<-|Hx]; [lia|]. specialize (Hmax x Hx). lia.
      * intros [Hm Hle]. f_equal.
        assert (a <= m) by (apply Hle; now left).
        assert (m' <= m) by (apply Hle; now right).
        destruct Hm as [<-|Hm]; [lia|]. specialize (Hmax m Hm). lia.
    + assert (l = []) as ->.
      { destruct l as [|b l]; [reflexivity|]. simpl in E.
        destruct (max_of l); discriminate. }
      split.
      * intros H. injection H as <-. split; [now left|].
        intros x [<-|[]]. lia.
      * intros [[<-|[]] _]. reflexivity.
Qed.

Lemma MaxId_Some t b r :
  In r t -> BuyerName r = b ->
  (forall r', In r' t -> BuyerName r' = b -> Id r' <= Id r) ->
  MaxId t b = Some (Id r).
Proof.
  intros Hr Hb Hmax. unfold MaxId. apply max_of_Some. split.
  - apply in_map. apply filter_In. split; [assumption|].
    now apply String.eqb_eq.
  - intros x Hx. apply in_map_iff in Hx. destruct Hx as (r' & <- & Hr').
    apply filter_In in Hr'. destruct Hr' as [Hr' E].
    apply String.eqb_eq in E. now apply Hmax.
Qed.

(** With distinct keys the report has exactly one line for a buyer: the
    [Debt] of the buyer's row with the greatest [Id]. *)
Lemma buyer_debts_latest t r x :
  primary_key t -> In r t ->
  (forall r', In r' t -> BuyerName r' = BuyerName r -> Id r' <= Id r) ->
  In (BuyerName r, x) (buyer_debts t) <-> x = Debt r.
Proof.
  intros Hpk Hr Hmax. unfold buyer_debts. rewrite in_map_iff. split.
  - intros (d & E & Hd). injection E as Eb <-.
    apply filter_In in Hd. destruct Hd as [Hd Hm].
    rewrite Eb, (MaxId_Some t _ r Hr eq_refl Hmax) in Hm.
    apply Z.eqb_eq in Hm. now rewrite (primary_key_inj t d r Hpk Hd Hr Hm).
  - intros ->. exists r. split; [reflexivity|].
    apply filter_In. split; [assumption|].
    rewrite (MaxId_Some t _ r Hr eq_refl Hmax). apply Z.eqb_refl.
Qed.

Lemma ascending_app_tail l1 x l2 :
  ascending (l1 ++ x :: l2) -> forall y, In y l2 -> Id x <= Id y.
Proof.
  induction l1 as [|a l1 IH]; simpl.
  - intros [H _]. exact H.
  - intros [_ H]. now apply IH.
Qed.

Lemma select_credit_ascending t b : ascending (select_credit t b).
Proof. apply order_by_Id_ascending. Qed.

(** The buyer's Credit row with the greatest [Id] closes the sequence. *)
Lemma select_credit_latest t r :
  primary_key t -> In r t -> DebitCredit r = Credit ->
  (forall r', In r' t -> BuyerName r' = BuyerName r -> Id r' <= Id r) ->
  exists l1, select_credit t (BuyerName r) = l1 ++ [r].
Proof.
  intros Hpk Hr Hc Hmax.
  assert (Hin : In r (select_credit t (BuyerName r))).
  { apply select_credit_In. split; [assumption|].
    apply credit_of_true. now split. }
  destruct (in_split _ _ Hin) as (l1 & l2 & E).
  exists l1. rewrite E. destruct l2 as [|y l2]; [reflexivity|]. exfalso.
  assert (Hy : In y (select_credit t (BuyerName r)))
    by (rewrite E; apply in_or_app; right; right; now left).
  pose proof (select_credit_ascending t (BuyerName r)) as Hasc.
  rewrite E in Hasc.
  pose proof (ascending_app_tail _ _ _ Hasc y (or_introl eq_refl)) as Hle.
  apply select_credit_In in Hy. destruct Hy as [Hyt Hyc].
  apply credit_of_true in Hyc. destruct Hyc as [_ Hyb].
  specialize (Hmax y Hyt Hyb).
  assert (Eid : Id y = Id r) by lia.
  pose proof (primary_key_inj t y r Hpk Hyt Hr Eid) as ->.
  pose proof (primary_key_select_credit t (BuyerName r) Hpk) as Hnd.
  unfold primary_key in Hnd. rewrite E, map_app in Hnd. simpl in Hnd.
  apply NoDup_remove_2 in Hnd. apply Hnd.
  apply in_or_app. right. now left.
Qed.

(** X9. On a balanced ledger, when the latest transaction recorded for a
    buyer is a Credit, the report "Buyer Debts" shows for that buyer
    exactly one figure: the total of all the buyer's Credit amounts, added
    in binary64 from left to right in ascending [Id] (Debit amounts are
    not subtracted). *)
Theorem buyer_debts_latest_Credit (t : list Row) (r : Row) (x : float) :
  balanced t ->
  In r t ->
  DebitCredit r = Credit ->
  (forall r', In r' t -> BuyerName r' = BuyerName r -> Id r' <= Id r) ->
  In (BuyerName r, x) (buyer_debts t) <->
  x = running_total (map Amount (select_credit t (BuyerName r))).
Proof.
  intros [Hpk Hinv] Hr Hc Hmax.
  rewrite (buyer_debts_latest t r x Hpk Hr Hmax).
  destruct (select_credit_latest t r Hpk Hr Hc Hmax) as [l1 E].
  assert (Hk : nth_error (select_credit t (BuyerName r)) (List.length l1)
               = Some r).
  { rewrite E, nth_error_app2 by lia. now rewrite Nat.sub_diag. }
  rewrite (prefix_sum_invariant_nth _ _ _ _ (Hinv (BuyerName r)) Hk).
  replace (S (List.length l1))
    with (List.length (map Amount (select_credit t (BuyerName r))))
    by (rewrite length_map, E, length_app; simpl; lia).
  now rewrite prefix_sum_all.
Qed.

Lemma ledger_B1_balanced_balanced : balanced (DailySheet ledger_B1_balanced).
Proof.
  split; [exact ledger_B1_balanced_primary_key|].
  intros b.
  destruct (string_dec b "B1") as [->|H1]; [reflexivity|].
  destruct (string_dec b "B2") as [->|H2]; [reflexivity|].
  unfold prefix_sum_invariant, select_credit.
  replace (filter (credit_of b) (DailySheet ledger_B1_balanced)) with (@nil Row);
    [reflexivity|].
  symmetry. apply filter_nil_iff. intros r Hr. apply credit_of_false. right.
  simpl in Hr. destruct Hr as [<-|[<-|[<-|[<-|[]]]]]; simpl; congruence.
Defined.

Lemma buyer_debts_latest_Credit_witness :
  In ("B1", 300%float) (buyer_debts (DailySheet ledger_B1_balanced)).
Proof.
  apply (buyer_debts_latest_Credit (DailySheet ledger_B1_balanced)
           (mkRow 3 "2024-03-01" "Anbu" "Lily" 20 10 200 Credit 300 "B1") 300
           ledger_B1_balanced_balanced).
  - simpl. tauto.
  - reflexivity.
  - simpl. intros r' [<-|[<-|[<-|[<-|[]]]]] H; simpl; try lia.
    discriminate.
  - reflexivity.
Defined.

(** X10. Right after a Debit submission for a buyer passes the guards of
    the add form, the report "Buyer Debts" shows for that buyer exactly
    one figure, minus the amount of that submission, whatever Credit the
    buyer has accumulated. *)
Theorem buyer_debts_after_Debit (conn : Db) (f : AddForm) (x : float) :
  primary_key (DailySheet conn) ->
  accepted f = true ->
  add_debit_credit f = Debit ->
  In (add_buyer_name f, x)
     (buyer_debts (DailySheet (fst (add_transaction conn f))))
  <-> x = (- (add_qty f * add_rate f))%float.
Proof.
  intros Hpk Hacc Hd.
  assert (Hrow : In (inserted_row conn f)
                    (DailySheet (fst (add_transaction conn f)))).
  { rewrite add_transaction_accepted by assumption. cbn [fst].
    apply recalculate_debts_keeps_Debit; [|exact Hd].
    cbn [DailySheet]. apply in_or_app. right. now left. }
  rewrite (buyer_debts_latest _ (inserted_row conn f) x
             (add_transaction_primary_key conn f Hpk) Hrow).
  - unfold inserted_row, add_new_debt, add_amount. simpl.
    now rewrite Hd.
  - intros r' Hr' _.
    rewrite add_transaction_accepted in Hr' by assumption. cbn [fst] in Hr'.
    rewrite recalculate_debts_table, recalculate_table_map in Hr'.
    apply in_map_iff in Hr'. destruct Hr' as (r0 & <- & Hr0).
    rewrite (keeps_columns_Id _ r0 (iterrows_row_keeps _ _)).
    cbn [DailySheet] in Hr0. apply in_app_or in Hr0.
    destruct Hr0 as [Hr0|[<-|[]]].
    + apply (next_Id_fresh conn) in Hr0. simpl. lia.
    + apply Z.le_refl.
Qed.

(** ** Setting a price *)

Lemma find_app {A} (p : A -> bool) l l' :
  find p (l ++ l') = match find p l with
                     | Some x => Some x
                     | None => find p l'
                     end.
Proof.
  induction l as [|x l IH]; simpl; [reflexivity|]. now destruct (p x).
Qed.

Lemma existsb_false_find {A} (p : A -> bool) l :
  existsb p l = false -> find p l = None.
Proof.
  induction l as [|x l IH]; simpl; [reflexivity|].
  destruct (p x); simpl; [discriminate|exact IH].
Qed.

Lemma same_price_key_true f d p :
  same_price_key f d p = true <-> price_FlowerName p = f /\ price_Date p = d.
Proof.
  unfold same_price_key. now rewrite andb_true_iff, !String.eqb_eq.
Qed.

Lemma fetchone_Price_update t price f d :
  existsb (same_price_key f d) t = true ->
  fetchone_Price (update_Price t price f d) f d = Some price.
Proof.
  unfold fetchone_Price, update_Price.
  change (fun p => (price_FlowerName p =? f)%string
                   && (price_Date p =? d)%string)
    with (same_price_key f d).
  induction t as [|x t IH]; simpl; [discriminate|].
  destruct (same_price_key f d x) eqn:E; simpl.
  - intros _. unfold same_price_key in *. simpl. now rewrite E.
  - intros H. rewrite E. now apply IH.
Qed.

Lemma fetchone_Price_update_other t price f d f' d' :
  (f', d') <> (f, d) ->
  fetchone_Price (update_Price t price f d) f' d' = fetchone_Price t f' d'.
Proof.
  intros Hne. unfold fetchone_Price, update_Price.
  change (fun p => (price_FlowerName p =? f')%string
                   && (price_Date p =? d')%string)
    with (same_price_key f' d').
  induction t as [|x t IH]; simpl; [reflexivity|].
  destruct (same_price_key f d x) eqn:E.
  - assert (E' : same_price_key f' d' x = false).
    { destruct (same_price_key f' d' x) eqn:E'; [|reflexivity].
      apply same_price_key_true in E. apply same_price_key_true in E'.
      destruct E as [E1 E2]. destruct E' as [E1' E2'].
      destruct Hne. congruence. }
    rewrite E'.
    replace (same_price_key f' d'
               (mkPriceRow (price_FlowerName x) (price_Date x) price))
      with (same_price_key f' d' x) by reflexivity.
    now rewrite E'.
  - destruct (same_price_key f' d' x); [reflexivity|exact IH].
Qed.

(** X11. Setting a price and looking it up is a round trip: after the form
    "Set Price" is submitted for a flower and a date, whether it inserts
    the entry or finds one and updates it, the add form of the Daily Sheet
    pre-fills exactly that price for that flower and date. *)
Theorem set_price_lookup
    (t : list PriceRow) (flower_name date_str : string) (price : float) :
  flower_name <> "" ->
  let t' := fst (set_price t true flower_name date_str price) in
  fetchone_Price t' flower_name date_str = Some price /\
  default_rate t' flower_name date_str = price.
Proof.
  intros Hf t'.
  assert (H : fetchone_Price t' flower_name date_str = Some price).
  { subst t'. unfold set_price, insert_Price.
    apply truthy_true in Hf. rewrite Hf. cbn [andb].
    destruct (existsb (same_price_key flower_name date_str) t) eqn:E;
      cbn [fst].
    - now apply fetchone_Price_update.
    - unfold fetchone_Price. rewrite find_app.
      change (fun p => (price_FlowerName p =? flower_name)%string
                       && (price_Date p =? date_str)%string)
        with (same_price_key flower_name date_str).
      rewrite (existsb_false_find _ _ E). simpl.
      unfold same_price_key. simpl. now rewrite !String.eqb_refl. }
  split; [exact H|]. unfold default_rate. now rewrite H.
Qed.

Lemma set_price_lookup_witness :
  default_rate
    (fst (set_price [mkPriceRow "Rose" "2024-03-01" 30;
                     mkPriceRow "Lily" "2024-03-01" 20]
                    true "Rose" "2024-03-01" 35)) "Rose" "2024-03-01" = 35%float.
Proof.
  refine (proj2 (set_price_lookup _ "Rose" "2024-03-01" 35 _)).
  discriminate.
Defined.

(** X12. Setting a price touches one key only and keeps the key unique:
    the lookup for every other flower or date answers as before, a table
    with distinct (FlowerName, Date) pairs keeps them distinct, and a run
    of the form that is not submitted or has no flower changes nothing. *)
Theorem set_price_frame
    (t : list PriceRow) (submit_add : bool) (flower_name date_str : string)
    (price : float) :
  let t' := fst (set_price t submit_add flower_name date_str price) in
  (forall f' d', (f', d') <> (flower_name, date_str) ->
                 fetchone_Price t' f' d' = fetchone_Price t f' d') /\
  (price_key t -> price_key t') /\
  (submit_add = false \/ flower_name = "" -> t' = t).
Proof.
  intros t'. subst t'. unfold set_price, insert_Price.
  destruct (submit_add && truthy flower_name) eqn:Eg.
  - destruct (existsb (same_price_key flower_name date_str) t) eqn:E;
      cbn [fst]; repeat split.
    + intros f' d' Hne. now apply fetchone_Price_update_other.
    + unfold price_key, update_Price. rewrite map_map.
      intros H. erewrite map_ext; [exact H|].
      intros p. now destruct (same_price_key flower_name date_str p).
    + apply andb_true_iff in Eg. destruct Eg as [Es Et].
      intros [-> | ->]; discriminate.
    + intros f' d' Hne. unfold fetchone_Price. rewrite find_app. simpl.
      replace ((flower_name =? f')%string && (date_str =? d')%string)
        with false; [now destruct (find _ t)|].
      symmetry. apply andb_false_iff.
      destruct (String.eqb_spec flower_name f') as [->|];
        destruct (String.eqb_spec date_str d') as [->|]; auto.
      now destruct Hne.
    + unfold price_key. intros H. rewrite map_app. simpl.
      eapply Permutation_NoDup; [apply Permutation_cons_append|].
      constructor; [|assumption].
      intros Hin. apply in_map_iff in Hin. destruct Hin as (p & Ep & Hp).
      injection Ep as E1 E2.
      assert (existsb (same_price_key flower_name date_str) t = true).
      { apply existsb_exists. exists p. split; [assumption|].
        now apply same_price_key_true. }
      congruence.
    + apply andb_true_iff in Eg. destruct Eg as [Es Et].
      intros [-> | ->]; discriminate.
  - cbn [fst]. repeat split; auto.
Qed.

(** ** Master records *)

Lemma existsb_master_Name t name :
  existsb (fun r => (master_Name r =? name)%string) t = true
  <-> In name (get_names t).
Proof.
  rewrite existsb_exists. unfold get_names. rewrite in_map_iff.
  split; intros (r & H1 & H2).
  - apply String.eqb_eq in H2. eauto.
  - exists r. split; [assumption|]. now apply String.eqb_eq.
Qed.

(** X13. Names stay unique in the customer and buyer masters. Adding a
    name that is already there is rejected with the page's "already
    exists" message and leaves the table as it was; adding a new non-empty
    name appends it with the success message; so adding the same name
    twice leaves exactly one such row. *)
Theorem add_master_unique
    (exists_msg added_msg : string) (t : list MasterRow)
    (name address contact_no : string) :
  NoDup (get_names t) ->
  name <> "" ->
  let r1 := add_master exists_msg added_msg t true name address contact_no in
  let r2 := add_master exists_msg added_msg (fst r1) true name address
                       contact_no in
  NoDup (get_names (fst r1)) /\
  (In name (get_names t) -> r1 = (t, [st_error exists_msg])) /\
  (~ In name (get_names t) ->
   r1 = (t ++ [mkMasterRow name address contact_no],
         [st_success added_msg])) /\
  r2 = (fst r1, [st_error exists_msg]) /\
  count_occ string_dec (get_names (fst r2)) name = 1%nat.
Proof.
  intros Hnd Hname r1 r2.
  assert (Htruthy : truthy name = true) by now apply truthy_true.
  assert (Hin1 : In name (get_names t) -> r1 = (t, [st_error exists_msg])).
  { intros Hin. subst r1. unfold add_master. rewrite Htruthy. cbn [andb].
    now rewrite (proj2 (existsb_master_Name t name) Hin). }
  assert (Hout1 : ~ In name (get_names t) ->
                  r1 = (t ++ [mkMasterRow name address contact_no],
                        [st_success added_msg])).
  { intros Hout. subst r1. unfold add_master. rewrite Htruthy. cbn [andb].
    destruct (existsb _ t) eqn:E; [|reflexivity].
    apply existsb_master_Name in E. contradiction. }
  assert (Hnd1 : NoDup (get_names (fst r1))).
  { destruct (in_dec string_dec name (get_names t)) as [Hin|Hout].
    - now rewrite (Hin1 Hin).
    - rewrite (Hout1 Hout). cbn [fst]. unfold get_names.
      rewrite map_app. simpl.
      eapply Permutation_NoDup; [apply Permutation_cons_append|].
      now constructor. }
  assert (Hin2 : In name (get_names (fst r1))).
  { destruct (in_dec string_dec name (get_names t)) as [Hin|Hout].
    - now rewrite (Hin1 Hin).
    - rewrite (Hout1 Hout). cbn [fst]. unfold get_names.
      rewrite map_app. apply in_or_app. right. now left. }
  assert (H2 : r2 = (fst r1, [st_error exists_msg])).
  { subst r2. unfold add_master at 1. rewrite Htruthy. cbn [andb].
    now rewrite (proj2 (existsb_master_Name (fst r1) name) Hin2). }
  repeat split; try assumption.
  rewrite H2. cbn [fst].
  apply NoDup_count_occ' ; assumption.
Qed.

Lemma add_master_unique_witness :
  add_customer (fst (add_customer [] true "Anbu" "12 Car Street" "98400"))
               true "Anbu" "7 Temple Road" "98401"
  = ([mkMasterRow "Anbu" "12 Car Street" "98400"],
     [st_error "Customer name already exists!"]).
Proof.
  destruct (add_master_unique "Customer name already exists!"
              "Customer added successfully!" [] "Anbu" "12 Car Street"
              "98400") as (_ & _ & H1 & _); [constructor|discriminate|].
  unfold add_customer. rewrite (H1 (fun H => H)). reflexivity.
Defined.

Lemma edit_master_Delete msg t name address contact_no t' msgs :
  edit_master msg t name address contact_no PressDelete = Some (t', msgs) ->
  name <> "" ->
  ~ In name (get_names t').
Proof.
  unfold edit_master. intros H Hname.
  destruct t as [|r0 t0] eqn:Et; [now injection H as <- _|].
  rewrite <- Et in *. apply truthy_true in Hname. rewrite Hname in H.
  destruct (find _ t); [|discriminate]. injection H as <- _.
  unfold get_names. rewrite in_map_iff. intros (r & E & Hr).
  apply filter_In in Hr. destruct Hr as [_ Hr].
  apply negb_true_iff, String.eqb_neq in Hr. contradiction.
Qed.

(** X14. Deleting a customer on the master page leaves the ledger as it
    is, and from then on every transaction recorded under that customer
    makes the edit block of the Daily Sheet raise: it can neither be
    updated nor deleted. *)
Theorem edit_customer_Delete_dangling
    (t t' : list MasterRow) (msgs : list Message)
    (sheet : list Row) (counter : Z) (fl bs : list string)
    (selected_id : Z) (current_data : Row) (address contact_no : string)
    (f : EditForm) :
  selected_id <> 0 ->
  fetchone_by_Id sheet selected_id = Some current_data ->
  Name current_data <> "" ->
  edit_customer t (Name current_data) address contact_no PressDelete
  = Some (t', msgs) ->
  edit_transaction (mkDb sheet counter (get_names t') fl bs) selected_id f
  = None.
Proof.
  intros Hsel Hfetch Hname Hdel.
  apply (edit_transaction_raises (mkDb sheet counter (get_names t') fl bs)
           _ f current_data Hsel Hfetch).
  left. cbn [customers].
  exact (edit_master_Delete _ _ _ _ _ _ _ Hdel Hname).
Qed.

(** ** Saving a price on the desktop and the rate it fills in *)

Lemma text_le_antisym a b :
  Desktop.text_le a b = true -> Desktop.text_le b a = true -> a = b.
Proof.
  rewrite !text_le_iff. intros [E|L] [E'|L']; auto.
  exfalso.
  exact (StrictOrder_Irreflexive _ (StrictOrder_Transitive _ _ _ L L')).
Qed.

Lemma same_flower_date_true fid d r :
  same_flower_date fid d r = true
  <-> Desktop.flower_id r = fid /\ Desktop.price_date r = d.
Proof.
  unfold same_flower_date.
  now rewrite andb_true_iff, Z.eqb_eq, String.eqb_eq.
Qed.

Lemma upsert_price_In t new_id fid d p r' :
  In r' (upsert_price t new_id fid d p) ->
  (same_flower_date fid d r' = true /\ Desktop.price r' = p) \/
  (same_flower_date fid d r' = false /\ In r' t).
Proof.
  unfold upsert_price.
  destruct (existsb (same_flower_date fid d) t) eqn:E.
  - intros H. apply in_map_iff in H. destruct H as (r & <- & Hr).
    destruct (same_flower_date fid d r) eqn:Er; [left|right; auto].
    split; [|reflexivity]. exact Er.
  - intros H. apply in_app_or in H. destruct H as [H|[<-|[]]].
    + right. split; [|assumption].
      destruct (same_flower_date fid d r') eqn:Er; [|reflexivity].
      rewrite <- E. symmetry. apply existsb_exists. eauto.
    + left. split; [|reflexivity].
      apply same_flower_date_true. now split.
Qed.

Lemma upsert_price_has t new_id fid d p :
  exists r, In r (upsert_price t new_id fid d p) /\
            same_flower_date fid d r = true.
Proof.
  unfold upsert_price.
  destruct (existsb (same_flower_date fid d) t) eqn:E.
  - apply existsb_exists in E. destruct E as (r & Hr & Er).
    exists (Desktop.mk_flower_price (Desktop.id r) (Desktop.flower_id r)
                                    (Desktop.price_date r) p).
    split; [|exact Er]. apply in_map_iff. exists r. now rewrite Er.
  - exists (Desktop.mk_flower_price new_id fid d p). split.
    + apply in_or_app. right. now left.
    + apply same_flower_date_true. now split.
Qed.

Lemma upsert_price_filter t new_id fid d p fid' ymd :
  fid' <> fid \/ Desktop.text_le d ymd = false ->
  filter (Desktop.on_or_before fid' ymd) (upsert_price t new_id fid d p)
  = filter (Desktop.on_or_before fid' ymd) t.
Proof.
  intros Hother.
  assert (Hout : forall r, same_flower_date fid d r = true ->
                           Desktop.on_or_before fid' ymd r = false).
  { intros r Hr. apply same_flower_date_true in Hr. destruct Hr as [Hf Hd].
    unfold Desktop.on_or_before. rewrite Hf, Hd.
    destruct Hother as [Hne|Hlt].
    - replace (fid =? fid') with false; [reflexivity|].
      symmetry. apply Z.eqb_neq. congruence.
    - rewrite Hlt. apply andb_false_r. }
  unfold upsert_price.
  destruct (existsb (same_flower_date fid d) t).
  - induction t as [|r t IH]; [reflexivity|]. cbn [map filter].
    destruct (same_flower_date fid d r) eqn:Er.
    + rewrite (Hout r Er).
      rewrite (Hout (Desktop.mk_flower_price (Desktop.id r)
                       (Desktop.flower_id r) (Desktop.price_date r) p) Er).
      exact IH.
    + now rewrite IH.
  - rewrite filter_app. cbn [filter].
    rewrite (Hout (Desktop.mk_flower_price new_id fid d p)).
    + apply app_nil_r.
    + apply same_flower_date_true. now split.
Qed.

(** X15. A price saved on the flower tab is the effective price from its
    date on: for every query date on or after it up to the flower's next
    later entry, [fetch_today_price] returns the saved price, whether the
    save inserted the entry or overwrote one, and
    [on_date_or_flower_change] puts it into the rate field. *)
Theorem add_price_effective
    (t : list Desktop.flower_price) (fid new_id : Z) (d ymd : string) (p : float) :
  fid <> 0 ->
  Desktop.text_le d ymd = true ->
  (forall r, In r t -> Desktop.flower_id r = fid ->
             Desktop.text_le (Desktop.price_date r) ymd = true ->
             Desktop.text_le (Desktop.price_date r) d = true) ->
  let t' := fst (add_price t (Some fid) new_id d p) in
  Desktop.fetch_today_price t' fid ymd = Some p /\
  forall count rate,
    Desktop.on_date_or_flower_change t' (S count) fid ymd rate = p.
Proof.
  intros Hfid Hle Hnext t'.
  assert (Et : t' = upsert_price t new_id fid d p).
  { subst t'. unfold add_price. apply Z.eqb_neq in Hfid. now rewrite Hfid. }
  assert (H : Desktop.fetch_today_price t' fid ymd = Some p).
  { rewrite Et.
    destruct (Desktop.fetch_today_price (upsert_price t new_id fid d p)
                                        fid ymd) as [q|] eqn:E.
    - apply fetch_today_price_Some in E.
      destruct E as (r & Hr & Hok & Hq & Hmax).
      destruct (upsert_price_has t new_id fid d p) as (r0 & Hr0 & Hk0).
      pose proof (proj1 (same_flower_date_true _ _ _) Hk0) as [Hf0 Hd0].
      assert (Hok0 : Desktop.on_or_before fid ymd r0 = true).
      { unfold Desktop.on_or_before. rewrite Hf0, Hd0, Z.eqb_refl.
        exact Hle. }
      pose proof (Hmax r0 Hr0 Hok0) as Hge. rewrite Hd0 in Hge.
      unfold Desktop.on_or_before in Hok. apply andb_true_iff in Hok.
      destruct Hok as [Hf Hd]. apply Z.eqb_eq in Hf.
      destruct (upsert_price_In _ _ _ _ _ _ Hr) as [[_ Hp]|[Hk Hin]].
      + congruence.
      + exfalso. pose proof (Hnext r Hin Hf Hd) as Hle'.
        pose proof (text_le_antisym _ _ Hle' Hge) as Hd'.
        assert (same_flower_date fid d r = true)
          by (apply same_flower_date_true; now split).
        congruence.
    - exfalso.
      destruct (upsert_price_has t new_id fid d p) as (r0 & Hr0 & Hk0).
      pose proof (proj1 (fetch_today_price_None _ _ _) E r0 Hr0) as Hno.
      apply same_flower_date_true in Hk0. destruct Hk0 as [Hf0 Hd0].
      unfold Desktop.on_or_before in Hno.
      rewrite Hf0, Hd0, Z.eqb_refl, Hle in Hno. discriminate. }
  split; [exact H|].
  intros count rate. unfold Desktop.on_date_or_flower_change. now rewrite H.
Qed.

Lemma add_price_effective_witness :
  let t := [ Desktop.mk_flower_price 1 7 "2024-03-01" 30;
             Desktop.mk_flower_price 2 7 "2024-03-10" 40 ] in
  Desktop.fetch_today_price
    (fst (add_price t (Some 7) 3 "2024-03-04" 35)) 7 "2024-03-06" = Some 35%float.
Proof.
  intros t.
  refine (proj1 (add_price_effective t 7 3 "2024-03-04" "2024-03-06" 35
                   _ eq_refl _)).
  - discriminate.
  - intros r [<-|[<-|[]]] _ H; [reflexivity|discriminate].
Defined.

(** X16. Saving a price changes the answer of [fetch_today_price] for no
    other flower and for no query date before the saved date; and without
    a selected flower [add_price] only warns and leaves the table as it
    is. *)
Theorem add_price_frame
    (t : list Desktop.flower_price) (flower_editing_id : option Z)
    (new_id : Z) (d : string) (p : float) :
  let t' := fst (add_price t flower_editing_id new_id d p) in
  (forall fid' ymd,
     Some fid' <> flower_editing_id \/ Desktop.text_le d ymd = false ->
     Desktop.fetch_today_price t' fid' ymd
     = Desktop.fetch_today_price t fid' ymd) /\
  (flower_editing_id = None \/ flower_editing_id = Some 0 ->
   add_price t flower_editing_id new_id d p
   = (t, [warn "Select a flower first"])).
Proof.
  intros t'. subst t'. split.
  - intros fid' ymd Hother. unfold add_price.
    destruct flower_editing_id as [fid|]; [|reflexivity].
    destruct (fid =? 0); [reflexivity|]. cbn [fst].
    unfold Desktop.fetch_today_price.
    rewrite upsert_price_filter; [reflexivity|].
    destruct Hother as [Hne|Hlt]; [left; congruence|now right].
  - intros [-> | ->]; reflexivity.
Qed.

(** ** Updating a Credit row in place *)

Lemma insert_by_Id_map_Id g r l :
  (forall x, Id (g x) = Id x) ->
  insert_by_Id (g r) (map g l) = map g (insert_by_Id r l).
Proof.
  intros Hg. induction l as [|x l IH]; simpl; [reflexivity|].
  rewrite !Hg. destruct (Id r <=? Id x); simpl; [reflexivity|].
  now rewrite IH.
Qed.

Lemma order_by_Id_map_Id g l :
  (forall x, Id (g x) = Id x) ->
  order_by_Id (map g l) = map g (order_by_Id l).
Proof.
  intros Hg. induction l as [|x l IH]; [reflexivity|].
  change (insert_by_Id (g x) (order_by_Id (map g l))
          = map g (insert_by_Id x (order_by_Id l))).
  rewrite IH. now apply insert_by_Id_map_Id.
Qed.

Lemma filter_map_in {A} (p : A -> bool) (g : A -> A) l :
  (forall r, In r l -> p (g r) = p r) ->
  filter p (map g l) = map g (filter p l).
Proof.
  induction l as [|x l IH]; intros H; simpl; [reflexivity|].
  rewrite (H x (or_introl eq_refl)).
  destruct (p x); simpl; rewrite IH; auto; intros r Hr; apply H; now right.
Qed.

Section Update_in_place.

Variables (conn : Db) (selected_id : Z) (f : EditForm) (current_data : Row).
Hypothesis Hpk : primary_key (DailySheet conn).
Hypothesis Hfetch :
  fetchone_by_Id (DailySheet conn) selected_id = Some current_data.
Hypothesis Hcredit : DebitCredit current_data = Credit.
Hypothesis Hsame : edit_buyer_name f = BuyerName current_data.
Hypothesis Hstay : edit_debit_credit f = Credit.

Let b := BuyerName current_data.
Let u (r : Row) : Row :=
  if Id r =? selected_id
  then mkRow (Id r) (edit_date f) (edit_name f) (edit_flower_name f)
             (edit_qty f) (edit_rate f) (edit_qty f * edit_rate f)
             (edit_debit_credit f) (edit_new_debt conn current_data f)
             (edit_buyer_name f)
  else r.

Lemma update_in_place_select :
  select_credit
    (DailySheet (execute_update conn current_data f selected_id)) b
  = map u (select_credit (DailySheet conn) b).
Proof.
  destruct (fetchone_by_Id_Some _ _ _ Hfetch) as [Hcur Hid].
  unfold execute_update. cbn [DailySheet set_DailySheet].
  unfold select_credit, update_DailySheet. fold u.
  rewrite filter_map_in.
  - apply order_by_Id_map_Id. intros x. unfold u.
    now destruct (Id x =? selected_id).
  - intros r Hr. unfold u. destruct (Id r =? selected_id) eqn:E;
      [|reflexivity].
    apply Z.eqb_eq in E. rewrite <- Hid in E.
    rewrite (primary_key_inj _ r current_data Hpk Hr Hcur E).
    unfold credit_of. cbn [DebitCredit BuyerName].
    rewrite Hstay, Hsame, Hcredit. reflexivity.
Qed.

Lemma update_in_place_Ids :
  map Id (select_credit
            (DailySheet (recalculate_debts
                           (execute_update conn current_data f selected_id)
                           b)) b)
  = map Id (select_credit (DailySheet conn) b).
Proof.
  rewrite recalculate_debts_table, recalculate_table_Ids.
  rewrite update_in_place_select, map_map. apply map_ext.
  intros r. unfold u. now destruct (Id r =? selected_id).
Qed.

Lemma update_in_place_Amounts :
  map Amount (select_credit
                (DailySheet (recalculate_debts
                               (execute_update conn current_data f selected_id)
                               b)) b)
  = map (fun r => if Id r =? selected_id
                  then (edit_qty f * edit_rate f)%float
                  else Amount r)
        (select_credit (DailySheet conn) b).
Proof.
  rewrite recalculate_debts_table, recalculate_table_Amounts.
  rewrite update_in_place_select, map_map. apply map_ext.
  intros r. unfold u. now destruct (Id r =? selected_id).
Qed.

End Update_in_place.

(** X18. Pressing Update on a Credit transaction that stays a Credit of
    the same buyer runs the UPDATE and then one recalculation, for that
    buyer, and no second one. It keeps the buyer's sequence in place: the
    buyer's Credit rows in strictly ascending [Id], the same [Id]s in the
    same order (also when the date is changed), the amounts as before
    except for the edited row, which carries the new quantity times rate,
    and every [Debt] recomputed as the running total of these amounts,
    added in binary64 from left to right. *)
Theorem edit_transaction_in_place
    (conn : Db) (selected_id : Z) (f : EditForm) (current_data : Row) :
  primary_key (DailySheet conn) ->
  selected_id <> 0 ->
  fetchone_by_Id (DailySheet conn) selected_id = Some current_data ->
  In (Name current_data) (customers conn) ->
  In (FlowerName current_data) (flowers conn) ->
  In (BuyerName current_data) (buyers conn) ->
  DebitCredit current_data = Credit ->
  edit_buyer_name f = BuyerName current_data ->
  edit_debit_credit f = Credit ->
  edit_button f = PressUpdate ->
  let b := BuyerName current_data in
  let conn' :=
    recalculate_debts (execute_update conn current_data f selected_id) b in
  let amounts :=
    map (fun r => if Id r =? selected_id
                  then (edit_qty f * edit_rate f)%float
                  else Amount r)
        (select_credit (DailySheet conn) b) in
  edit_transaction conn selected_id f
  = Some (conn', [st_success "Transaction updated successfully!"]) /\
  credit_sequence (DailySheet conn') b (select_credit (DailySheet conn') b) /\
  map Id (select_credit (DailySheet conn') b)
  = map Id (select_credit (DailySheet conn) b) /\
  map Amount (select_credit (DailySheet conn') b) = amounts /\
  map Debt (select_credit (DailySheet conn') b) = prefix_sums amounts /\
  forall (k : nat) (row : Row),
    nth_error (select_credit (DailySheet conn') b) k = Some row ->
    Debt row = running_total (firstn (S k) amounts).
Proof.
  intros Hpk Hsel Hfetch Hcust Hflow Hbuy Hcredit Hsame Hstay Hbutton b
         conn' amounts.
  pose proof (execute_update_primary_key conn current_data f selected_id
                Hpk) as Hpk1.
  pose proof (recalculate_table_invariant _ b Hpk1) as Hinv.
  rewrite <- recalculate_debts_table in Hinv. fold conn' in Hinv.
  assert (HA : map Amount (select_credit (DailySheet conn') b) = amounts)
    by now apply update_in_place_Amounts.
  split; [|split; [|split; [|split; [|split]]]].
  - rewrite (edit_transaction_renders conn selected_id f current_data)
      by assumption.
    rewrite Hbutton, Hsame. cbn zeta. now rewrite String.eqb_refl.
  - apply select_credit_sequence. unfold conn'.
    rewrite recalculate_debts_table.
    now apply recalculate_table_primary_key.
  - now apply update_in_place_Ids.
  - exact HA.
  - unfold prefix_sum_invariant in Hinv. now rewrite Hinv, HA.
  - intros k row Hk. rewrite <- HA.
    apply (prefix_sum_invariant_nth _ b k row Hinv Hk).
Qed.

End Aggregates.

(** ** The scenarios, run with sums taken from left to right *)

Lemma add_transaction_credit_without_buyer_witness :
  add_transaction sum_left ledger_B1
    (mkAddForm true "2024-03-04" "Anbu" "Rose" 2 10 Credit "")
  = (ledger_B1, [st_error buyer_required]).
Proof.
  pose proof (add_transaction_credit_without_buyer sum_left ledger_B1
                (mkAddForm true "2024-03-04" "Anbu" "Rose" 2 10 Credit "")
                eq_refl eq_refl) as [H1 H2].
  rewrite (surjective_pairing (add_transaction sum_left _ _)), H1, H2.
  reflexivity.
Defined.

(** C7 as stated fails: a Credit submission with an empty buyer name and
    no customer selected is dropped without any message. *)
Lemma add_transaction_silent_rejection :
  let f := mkAddForm true "2024-03-04" "" "Rose" 2 10 Credit "" in
  submit_add f = true /\ add_debit_credit f = Credit /\
  add_buyer_name f = "" /\
  add_transaction sum_left ledger_B1 f = (ledger_B1, []) /\
  ~ (exists msg,
       In (st_error msg) (snd (add_transaction sum_left ledger_B1 f))).
Proof.
  repeat split. intros [msg H]. exact H.
Qed.

Lemma add_transaction_Debit_persists_witness :
  let f := mkAddForm true "2024-03-05" "Anbu" "Rose" 3 10 Debit "B1" in
  let l := [ Add (mkAddForm true "2024-03-06" "Mala" "Lily" 1 10 Credit "B1");
             Edit 1 (mkEditForm "2024-03-02" "Anbu" "Rose" 10 10 Credit "B1"
                                PressDelete);
             Recalculate "B1" ] in
  In (mkRow 5 "2024-03-05" "Anbu" "Rose" 3 10 30 Debit (-30) "B1")
     (DailySheet
        (run_actions sum_left (fst (add_transaction sum_left ledger_B1 f)) l)).
Proof.
  intros f l.
  refine (proj2 (proj2 (proj2 (proj2
            (add_transaction_Debit_persists sum_left ledger_B1 f l
               eq_refl _ _ eq_refl _))))).
  - discriminate.
  - discriminate.
  - repeat constructor; simpl; discriminate.
Defined.

Lemma add_transaction_Credit_appends_witness :
  let f := mkAddForm true "2024-01-15" "Mala" "Lily" 6 10 Credit "B1" in
  DailySheet (fst (add_transaction sum_left ledger_B1_balanced f))
  = DailySheet ledger_B1_balanced
    ++ [mkRow 5 "2024-01-15" "Mala" "Lily" 6 10 60 Credit 360 "B1"] /\
  map Date
    (select_credit
       (DailySheet (fst (add_transaction sum_left ledger_B1_balanced f))) "B1")
  = ["2024-03-02"; "2024-03-01"; "2024-01-15"].
Proof.
  intros f.
  destruct (add_transaction_Credit_appends sum_left ledger_B1_balanced f
              ledger_B1_balanced_primary_key eq_refl)
    as (_ & _ & _ & _ & H); try discriminate; try reflexivity.
  destruct (H eq_refl) as [Ht Hs]. split.
  - exact Ht.
  - exact (f_equal (map Date) Hs).
Defined.

Lemma edit_transaction_moves_buyer_witness :
  let f := mkEditForm "2024-03-02" "Anbu" "Rose" 10 10 Credit "B2"
                      PressUpdate in
  exists conn',
    edit_transaction sum_left ledger_B1_balanced 1 f
    = Some (conn', [st_success "Transaction updated successfully!"]) /\
    map Debt (select_credit (DailySheet conn') "B1") = [200]%float /\
    map Debt (select_credit (DailySheet conn') "B2") = [100; 140]%float.
Proof.
  intros f.
  destruct (edit_transaction_moves_buyer sum_left ledger_B1_balanced 1 f
              (mkRow 1 "2024-03-02" "Anbu" "Rose" 10 10 100 Credit 100 "B1")
              "B1" "B2" ledger_B1_balanced_primary_key)
    as (H1 & _ & _ & H2 & H3 & _);
    try reflexivity; try discriminate; try (simpl; tauto).
  eexists. split; [exact H1|].
  unfold prefix_sum_invariant in H2, H3. split.
  - rewrite H2. reflexivity.
  - rewrite H3. reflexivity.
Defined.

Lemma edit_transaction_delete_rebalances_witness :
  let f := mkEditForm "2024-03-02" "Anbu" "Rose" 10 10 Credit "B1"
                      PressDelete in
  exists conn',
    edit_transaction sum_left ledger_B1_balanced 1 f = Some (conn', []) /\
    map Debt (select_credit (DailySheet conn') "B1") = [200]%float.
Proof.
  intros f.
  destruct (edit_transaction_delete_rebalances sum_left ledger_B1_balanced 1 f
              (mkRow 1 "2024-03-02" "Anbu" "Rose" 10 10 100 Credit 100 "B1")
              ledger_B1_balanced_primary_key)
    as (H1 & _ & l1 & l2 & _ & _ & HA & _ & H2);
    try reflexivity; try discriminate; try (simpl; tauto).
  eexists. split; [exact H1|].
  etransitivity.
  - symmetry.
    apply (H2 (mkDb [mkRow 1 "2024-03-01" "Anbu" "Lily" 20 10 200 Credit 0
                           "B1"] 1 [] [] [])).
    + unfold primary_key. simpl. constructor; [simpl; tauto|constructor].
    + rewrite <- HA. reflexivity.
  - reflexivity.
Defined.

Lemma run_actions_balanced_witness :
  let l := [ Add (mkAddForm true "2024-03-02" "Anbu" "Rose" 10 10 Credit "B1");
             Add (mkAddForm true "2024-03-02" "Anbu" "Rose" 5 10 Debit "B1");
             Add (mkAddForm true "2024-03-01" "Anbu" "Lily" 20 10 Credit "B1");
             Edit 1 (mkEditForm "2024-03-02" "Anbu" "Rose" 7 10 Credit "B1"
                                PressUpdate) ] in
  map Debt (select_credit
              (DailySheet
                 (run_actions sum_left
                    (empty_ledger ["Anbu"] ["Rose"; "Lily"] ["B1"]) l)) "B1")
  = [70; 270]%float.
Proof.
  intros l.
  destruct (run_actions_balanced sum_left
              (empty_ledger ["Anbu"] ["Rose"; "Lily"] ["B1"]) l
              (balanced_empty_ledger _ _ _)) as [[_ H] _].
  specialize (H "B1"). unfold prefix_sum_invariant in H.
  rewrite H. reflexivity.
Defined.

Lemma edit_transaction_dangling_witness :
  let conn := mkDb (DailySheet ledger_B1_balanced) 4 ["Anbu"]
                   ["Rose"; "Lily"] ["B1"; "B2"] in
  edit_transaction sum_left conn 4
    (mkEditForm "2024-03-03" "Anbu" "Rose" 4 10 Credit "B2" PressDelete)
  = None.
Proof.
  intros conn.
  refine (proj1 (edit_transaction_dangling sum_left conn 4 _
                   (mkRow 4 "2024-03-03" "Mala" "Rose" 4 10 40 Credit 40 "B2")
                   _ eq_refl _)).
  - discriminate.
  - left. simpl. intros [H|[]]. discriminate.
Defined.

Lemma edit_transaction_Debit_without_buyer_witness :
  edit_transaction sum_left
    (fst (add_transaction sum_left ledger_B1_balanced
            (mkAddForm true "2024-03-05" "Anbu" "Rose" 3 10 Debit "")))
    5 (mkEditForm "2024-03-05" "Anbu" "Rose" 3 10 Debit "B1" PressDelete)
  = None.
Proof.
  apply (edit_transaction_Debit_without_buyer sum_left ledger_B1_balanced
           (mkAddForm true "2024-03-05" "Anbu" "Rose" 3 10 Debit ""));
    try reflexivity.
  simpl. intros [H|[H|[]]]; discriminate.
Defined.

Lemma inserted_Id_never_reused_witness :
  let f := mkAddForm true "2024-03-05" "Anbu" "Rose" 3 10 Credit "B1" in
  let l := [Edit 5 (mkEditForm "2024-03-05" "Anbu" "Rose" 3 10 Credit "B1"
                               PressDelete)] in
  let conn := fst (add_transaction sum_left ledger_B1_balanced f) in
  map Id (DailySheet (run_actions sum_left conn l)) = [1; 2; 3; 4] /\
  5 < next_Id (run_actions sum_left conn l).
Proof.
  intros f l conn. split; [reflexivity|].
  exact (inserted_Id_never_reused sum_left ledger_B1_balanced f l eq_refl).
Defined.

Lemma buyer_debts_after_Debit_witness :
  In ("B1", (-30)%float)
     (buyer_debts
        (DailySheet
           (fst (add_transaction sum_left ledger_B1_balanced
                   (mkAddForm true "2024-03-05" "Anbu" "Rose" 3 10 Debit
                              "B1"))))).
Proof.
  apply (buyer_debts_after_Debit sum_left ledger_B1_balanced
           (mkAddForm true "2024-03-05" "Anbu" "Rose" 3 10 Debit "B1") (-30)
           ledger_B1_balanced_primary_key eq_refl eq_refl).
  reflexivity.
Defined.

Lemma edit_customer_Delete_dangling_witness :
  edit_transaction sum_left
    (mkDb (DailySheet ledger_B1_balanced) 4
          (get_names [mkMasterRow "Anbu" "12 Car Street" "98400"])
          ["Rose"; "Lily"] ["B1"; "B2"])
    4 (mkEditForm "2024-03-03" "Mala" "Rose" 4 10 Credit "B2" PressUpdate)
  = None.
Proof.
  apply (edit_customer_Delete_dangling sum_left
           [mkMasterRow "Anbu" "12 Car Street" "98400";
            mkMasterRow "Mala" "3 Flower Bazaar" "98402"]
           [mkMasterRow "Anbu" "12 Car Street" "98400"] []
           _ _ _ _ 4
           (mkRow 4 "2024-03-03" "Mala" "Rose" 4 10 40 Credit 40 "B2")
           "3 Flower Bazaar" "98402");
    try reflexivity; discriminate.
Defined.

Lemma replay_delete_never_inserted_witness :
  let conn0 := empty_ledger ["Anbu"] ["Rose"] ["B1"] in
  let c (a : float) :=
    mkAddForm true "2024-03-02" "Anbu" "Rose" a 10 Credit "B1" in
  map Debt (select_credit
              (DailySheet
                 (recalculate_debts
                    (execute_delete
                       (replay sum_left conn0 ([c 10%float] ++ c 5%float
                                        :: [c 20%float])) 2)
                    "B1")) "B1")
  = [100; 300]%float.
Proof.
  intros conn0 c.
  etransitivity.
  - apply (replay_delete_never_inserted sum_left conn0 [c 10%float] [c 20%float]
             (c 5%float));
      [constructor|reflexivity|reflexivity].
  - reflexivity.
Defined.

Lemma edit_transaction_in_place_witness :
  let f := mkEditForm "2024-01-01" "Anbu" "Rose" 7 10 Credit "B1"
                      PressUpdate in
  exists conn',
    edit_transaction sum_left ledger_B1_balanced 1 f
    = Some (conn', [st_success "Transaction updated successfully!"]) /\
    map Debt (select_credit (DailySheet conn') "B1") = [70; 270]%float.
Proof.
  intros f.
  destruct (edit_transaction_in_place sum_left ledger_B1_balanced 1 f
              (mkRow 1 "2024-03-02" "Anbu" "Rose" 10 10 100 Credit 100 "B1")
              ledger_B1_balanced_primary_key)
    as (H1 & _ & _ & _ & H2 & _);
    try reflexivity; try discriminate; try (simpl; tauto).
  eexists. split; [exact H1|]. etransitivity; [exact H2|reflexivity].
Defined.
